(** * IfcPatch: recipe execution, output writing and schema extraction

    A shallow embedding of [ifcpatch/__init__.py]: [execute],
    [get_patch_input_argument_use], [write], [extract_docs] and
    [_extract_docs], followed by the properties of these functions.

    Python objects are one dynamically typed universe [pyobj]; dictionaries
    with string keys are [gmap string _]; the [OrderedDict] of inputs is an
    association list kept in insertion order; exceptions are values of
    [exn]; side effects (logging configuration, constructor calls, [print],
    the file system) are threaded through a [world]. *)

From Stdlib Require Import ZArith Ascii String List Lia Bool.
From stdpp Require Import base option list strings gmap.

Local Open Scope string_scope.
Local Open Scope list_scope.

(** ** Python objects *)

(** The objects the module handles.  [PFile] is an [ifcopenshell.file]
    (represented by the text it serialises to), [PLogger] a logger; the last
    six constructors are the objects that occur as type hints: a class, a
    [types.GenericAlias] such as [list[str]], a [typing.Union[...]], a
    [typing.Literal[...]], a [types.UnionType] such as [int | str], and an
    alias of the [typing] module such as [typing.List[str]]. *)
#[warnings="-register-all"]
Inductive pyobj : Type :=
| PNone
| PBool (b : bool)
| PInt (n : Z)
| PFloat (bits : Z)
| PStr (s : string)
| PList (l : list pyobj)
| PFile (ifc : string)
| PLogger (name : string)
| PClass (name : string)
| PGenericAlias (name : string) (args : list pyobj)
| PUnion (args : list pyobj)
| PLiteral (items : list pyobj)
| PUnionType (args : list pyobj)
| PTypingAlias (name : string) (args : list pyobj).

(** Truth value of an object ([bool(x)]). *)
Definition truthy (x : pyobj) : bool :=
  match x with
  | PNone => false
  | PBool b => b
  | PInt n => negb (n =? 0)%Z
  | PFloat bits => negb ((bits mod 2 ^ 63) =? 0)%Z
  | PStr s => negb (s =? EmptyString)
  | PList l => match l with [] => false | _ :: _ => true end
  | _ => true
  end.

(** [x is None]. *)
Definition is_None (x : pyobj) : bool :=
  match x with
  | PNone => true
  | _ => false
  end.

(** [x == s] for a string literal [s]. *)
Definition py_eq_str (x : pyobj) (s : string) : bool :=
  match x with
  | PStr t => (t =? s)
  | _ => false
  end.

(** [isinstance(x, (str, float, int, bool))]. *)
Definition is_scalar (x : pyobj) : bool :=
  match x with
  | PStr _ | PFloat _ | PInt _ | PBool _ => true
  | _ => false
  end.

(** ** Exceptions and results *)

Inductive exn_kind : Type :=
| AttributeError
| ModuleNotFoundError
| FileNotFoundError
| IndexError
| KeyError
| ValueError
| TypeError
| OtherError (name : string).

Definition exn_kind_eqb (a b : exn_kind) : bool :=
  match a, b with
  | AttributeError, AttributeError
  | ModuleNotFoundError, ModuleNotFoundError
  | FileNotFoundError, FileNotFoundError
  | IndexError, IndexError
  | KeyError, KeyError
  | ValueError, ValueError
  | TypeError, TypeError => true
  | OtherError n, OtherError m => (n =? m)
  | _, _ => false
  end.

Record exn : Type := Exn { exn_kind_of : exn_kind; exn_msg : string }.

Inductive result (A : Type) : Type :=
| Ok (a : A)
| Raise (e : exn).
Arguments Ok {A} a.
Arguments Raise {A} e.

Definition rbind {A B} (m : result A) (k : A -> result B) : result B :=
  match m with
  | Ok a => k a
  | Raise e => Raise e
  end.

Declare Scope py_scope.
Delimit Scope py_scope with py.
Notation "x <- m ;; k" := (rbind m (fun x => k))
  (at level 100, m at next level, right associativity) : py_scope.

(** [l[i]]: an [IndexError] out of range. *)
Definition index {A} (l : list A) (i : nat) : result A :=
  match l !! i with
  | Some a => Ok a
  | None => Raise (Exn IndexError "list index out of range")
  end.

(** [[f(x) for x in l]] for a fallible [f]: the first failure wins. *)
Fixpoint map_result {A B} (f : A -> result B) (l : list A) : result (list B) :=
  match l with
  | [] => Ok []
  | a :: l' =>
      (b <- f a ;;
       bs <- map_result f l' ;;
       Ok (b :: bs))%py
  end.

(** ** Side effects *)

Inductive event : Type :=
| EvBasicConfig (filename : pyobj)
| EvInit (argv : list pyobj)
| EvPatch.

(** The world: the calls made so far, what was printed, and the files. *)
Record world : Type := World {
  trace : list event;
  stdout : list string;
  fs : gmap string string
}.

Record eff (A : Type) : Type := Eff { run : world -> world * result A }.
Arguments Eff {A} run.
Arguments run {A} e w.

Definition eret {A} (a : A) : eff A := Eff (fun w => (w, Ok a)).
Definition eraise {A} (e : exn) : eff A := Eff (fun w => (w, Raise e)).
Definition lift {A} (r : result A) : eff A := Eff (fun w => (w, r)).
Definition ebind {A B} (m : eff A) (k : A -> eff B) : eff B :=
  Eff (fun w =>
         match run m w with
         | (w', Ok a) => run (k a) w'
         | (w', Raise e) => (w', Raise e)
         end).

Declare Scope eff_scope.
Delimit Scope eff_scope with eff.
Notation "x <- m ;; k" := (ebind m (fun x => k))
  (at level 100, m at next level, right associativity) : eff_scope.
Notation "m ;;; k" := (ebind m (fun _ => k))
  (at level 100, right associativity) : eff_scope.

(** [try: body  except kind as e: handler(e)]. *)
Definition try_except {A} (body : eff A) (kind : exn_kind) (handler : exn -> eff A) : eff A :=
  Eff (fun w =>
         match run body w with
         | (w', Ok a) => (w', Ok a)
         | (w', Raise e) =>
             if exn_kind_eqb (exn_kind_of e) kind then run (handler e) w'
             else (w', Raise e)
         end).

Definition emit (ev : event) : eff unit :=
  Eff (fun w => (World (trace w ++ [ev]) (stdout w) (fs w), Ok tt)).

Definition print (s : string) : eff unit :=
  Eff (fun w => (World (trace w) (stdout w ++ [s]) (fs w), Ok tt)).

Definition get_fs : eff (gmap string string) := Eff (fun w => (w, Ok (fs w))).

Definition put_fs (f : gmap string string) : eff unit :=
  Eff (fun w => (World (trace w) (stdout w) f, Ok tt)).

(** ** Strings *)

(** Python strings are modelled as byte strings of ASCII text. *)

Definition NL : ascii := ascii_of_nat 10.
Definition COLON : ascii := ":"%char.

(** [c.isspace()] on ASCII: tab to carriage return, the four separators
    0x1c-0x1f, and the space. *)
Definition is_space (c : ascii) : bool :=
  let n := nat_of_ascii c in
  ((9 <=? n) && (n <=? 13) || (28 <=? n) && (n <=? 31) || (n =? 32))%nat.

(** [s.split(sep)] for a one-character separator. *)
Fixpoint split (sep : ascii) (s : string) : list string :=
  match s with
  | EmptyString => [EmptyString]
  | String c s' =>
      if Ascii.eqb c sep then EmptyString :: split sep s'
      else match split sep s' with
           | [] => [String c EmptyString]
           | f :: fs => String c f :: fs
           end
  end.

Fixpoint lstrip (s : string) : string :=
  match s with
  | EmptyString => EmptyString
  | String c s' => if is_space c then lstrip s' else s
  end.

Fixpoint rstrip (s : string) : string :=
  match s with
  | EmptyString => EmptyString
  | String c s' =>
      match rstrip s' with
      | EmptyString => if is_space c then EmptyString else String c EmptyString
      | r => String c r
      end
  end.

(** [s.strip()]. *)
Definition strip (s : string) : string := rstrip (lstrip s).

(** [s.startswith(p)]. *)
Definition startswith (p s : string) : bool := String.prefix p s.

(** [s.replace(old, new)] for a non-empty [old]: occurrences are replaced
    from the left and do not overlap; [skip] counts the characters of a
    matched occurrence still to be passed over. *)
Fixpoint replace_from (old new : string) (skip : nat) (s : string) : string :=
  match s with
  | EmptyString => EmptyString
  | String c s' =>
      match skip with
      | S k => replace_from old new k s'
      | O =>
          if String.prefix old s
          then new ++ replace_from old new (String.length old - 1)%nat s'
          else String c (replace_from old new 0 s')
      end
  end.

Definition replace (old new s : string) : string :=
  match old with
  | EmptyString => s
  | _ => replace_from old new 0 s
  end.

(** ** Modules, classes and methods *)

(** A parameter of [inspect.signature]; [p_default = None] stands for
    [inspect.Parameter.empty]. *)
Record parameter : Type := MkParameter {
  p_name : string;
  p_default : option pyobj
}.

(** A method as the module observes it: its signature, the outcome of
    [typing.get_type_hints] on it, and its [__doc__]. *)
Record pymethod : Type := PyMethod {
  m_params : list parameter;
  m_type_hints : result (gmap string pyobj);
  m_doc : option string
}.

(** A class: its name, its class-level data attributes, the methods that
    attribute lookup finds on it, what calling it with positional arguments
    does (the attributes of the new instance, or an exception), and what
    [patch()] does to the attributes of an instance. *)
Record pyclass : Type := PyClass {
  c_name : string;
  c_attrs : gmap string pyobj;
  c_methods : gmap string pymethod;
  c_init : list pyobj -> result (gmap string pyobj);
  c_patch : gmap string pyobj -> result (gmap string pyobj)
}.

(** The package on disk: its directory and, for each file
    [recipes/<name>.py] that exists, what executing it gives: the classes
    of the module, or the exception its top level raises. *)
Record environment : Type := Environment {
  pkg_dir : string;
  recipe_files : gmap string (result (gmap string pyclass))
}.

(** [importlib.import_module("ifcpatch.recipes.<name>")]. *)
Definition import_module (env : environment) (name : string) : result (gmap string pyclass) :=
  match recipe_files env !! name with
  | Some r => r
  | None =>
      Raise (Exn ModuleNotFoundError ("No module named 'ifcpatch.recipes." ++ name ++ "'"))
  end.

(** [getattr(module, name)] for a class of the module. *)
Definition getattr_module (modname : string) (m : gmap string pyclass) (name : string) : result pyclass :=
  match m !! name with
  | Some c => Ok c
  | None =>
      Raise (Exn AttributeError
               ("module '" ++ modname ++ "' has no attribute '" ++ name ++ "'"))
  end.

(** [getattr(cls, method_name)]. *)
Definition getattr_method (cls : pyclass) (name : string) : result pymethod :=
  match c_methods cls !! name with
  | Some m => Ok m
  | None =>
      Raise (Exn AttributeError
               ("type object '" ++ c_name cls ++ "' has no attribute '" ++ name ++ "'"))
  end.

(** [instance.<name>] on the attributes of an instance of [cls]. *)
Definition getattr_instance (cls : pyclass) (inst : gmap string pyobj) (name : string) : result pyobj :=
  match inst !! name with
  | Some v => Ok v
  | None =>
      Raise (Exn AttributeError
               ("'" ++ c_name cls ++ "' object has no attribute '" ++ name ++ "'"))
  end.

(** [*arguments]: the items of an iterable. *)
Definition unpack (x : pyobj) : result (list pyobj) :=
  match x with
  | PList l => Ok l
  | PStr s => Ok (map (fun c => PStr (String c EmptyString)) (list_ascii_of_string s))
  | _ => Raise (Exn TypeError "Value after * must be an iterable")
  end.

(** ** [execute] *)

(** [ArgumentsDict]: [recipe] is required; a [NotRequired] key is [None]
    when the dictionary does not have it, so that [Some PNone] is a key
    present with the value [None]. *)
Record ArgumentsDict : Type := {
  recipe : string;
  file : option pyobj;
  input : option pyobj;
  log : option pyobj;
  arguments : option pyobj
}.

(** [d.get(key)]. *)
Definition dict_get (v : option pyobj) : pyobj := default PNone v.

Definition get_patch_input_argument_use (env : environment) (recipe : string) : result pyobj :=
  (recipe_module <- import_module env recipe ;;
   Patcher <- getattr_module ("ifcpatch.recipes." ++ recipe) recipe_module "Patcher" ;;
   Ok (default (PStr "IGNORED") (c_attrs Patcher !! "input_argument")))%py.

Definition requires_msg (recipe what : string) : string :=
  "Recipe " ++ recipe ++ " is requiring '" ++ what ++ "' argument to be provided.".

Definition execute (env : environment) (args : ArgumentsDict) : eff pyobj :=
  ((match log args with
    | Some filename => emit (EvBasicConfig filename)
    | None => eret tt
    end) ;;;
   let logger := PLogger "IFCPatch" in
   recipe_mod <- lift (import_module env (recipe args)) ;;
   (* Ensure file or input is provided. *)
   input_argument <- lift (get_patch_input_argument_use env (recipe args)) ;;
   (if py_eq_str input_argument "REQUIRED"
    then if negb (truthy (dict_get (input args)))
         then eraise (Exn ValueError (requires_msg (recipe args) "input"))
         else eret tt
    else match file args with
         | None => eraise (Exn ValueError (requires_msg (recipe args) "file"))
         | Some _ => eret tt
         end) ;;;
   let arguments := default (PList []) (arguments args) in
   Patcher <- lift (getattr_module ("ifcpatch.recipes." ++ recipe args) recipe_mod "Patcher") ;;
   init <- lift (getattr_method Patcher "__init__") ;;
   argv <- (match m_doc init with
            | Some _ =>
                spread <- lift (unpack arguments) ;;
                eret ([dict_get (input args); dict_get (file args); logger] ++ spread)
            | None => eret [dict_get (input args); dict_get (file args); logger; arguments]
            end) ;;
   emit (EvInit argv) ;;;
   patcher <- lift (c_init Patcher argv) ;;
   emit EvPatch ;;;
   patcher <- lift (c_patch Patcher patcher) ;;
   (* the default of getattr is evaluated before getattr is called *)
   original <- lift (getattr_instance Patcher patcher "file") ;;
   let output := default original (patcher !! "file_patched") in
   eret output)%eff.

(** ** [write] *)

(** The file system is a flat map from paths to the contents of regular
    files.  [os.path.exists], [shutil.move] and [open(path, "w").write]: *)
Definition path_exists (f : gmap string string) (p : string) : bool :=
  bool_decide (is_Some (f !! p)).

Definition shutil_move (src dst : string) (f : gmap string string) : gmap string string :=
  match f !! src with
  | Some content => <[dst := content]> (delete src f)
  | None => f
  end.

Definition write_text (path content : string) (f : gmap string string) : gmap string string :=
  <[path := content]> f.

(** Modelled from the spec: [ifcopenshell.file.write], the document
    handle's own serialisation capability, which is not part of this
    module; it puts the serialised model at the path (other objects have no
    [write] attribute). *)
Definition file_write (output : pyobj) (filepath : string) : eff unit :=
  match output with
  | PFile ifc => (f <- get_fs ;; put_fs (write_text filepath ifc f))%eff
  | _ => eraise (Exn AttributeError "object has no attribute 'write'")
  end.

Definition write (output : pyobj) (filepath : string) : eff unit :=
  match output with
  | PNone => eret tt
  | PStr s =>
      (f <- get_fs ;;
       if path_exists f s
       then put_fs (shutil_move s filepath f)
       else put_fs (write_text filepath s f))%eff
  | _ => file_write output filepath
  end.

(** ** Ordered dictionaries *)

(** [collections.OrderedDict] with string keys: an association list in
    insertion order, each key at most once. *)
Module OrderedDict.
Section ops.
Context {V : Type}.

Fixpoint lookup (k : string) (d : list (string * V)) : option V :=
  match d with
  | [] => None
  | (k', v) :: d' => if String.eqb k k' then Some v else lookup k d'
  end.

(** [k in d]. *)
Definition mem (k : string) (d : list (string * V)) : bool :=
  match lookup k d with Some _ => true | None => false end.

(** [d[k] = v]: in place when the key is there, at the end otherwise. *)
Fixpoint set (k : string) (v : V) (d : list (string * V)) : list (string * V) :=
  match d with
  | [] => [(k, v)]
  | (k', v') :: d' =>
      if String.eqb k k' then (k', v) :: d' else (k', v') :: set k v d'
  end.

(** [f] applied to the value at [k], when there is one. *)
Fixpoint alter (f : V -> V) (k : string) (d : list (string * V)) : list (string * V) :=
  match d with
  | [] => []
  | (k', v') :: d' =>
      if String.eqb k k' then (k', f v') :: d' else (k', v') :: alter f k d'
  end.

Definition keys (d : list (string * V)) : list string := map fst d.
End ops.
End OrderedDict.

(** ** [_extract_docs] and [extract_docs] *)

(** The dictionary [docs]: ["class"] and ["inputs"] are always set,
    ["name"], ["output"] and ["description"] only from a docstring. *)
Record Docs : Type := MkDocs {
  d_class : pyclass;
  d_name : option string;
  d_output : option (gmap string pyobj);
  d_description : option string;
  d_inputs : list (string * gmap string pyobj)
}.

(** [hint.__name__]. *)
Definition getattr_name (hint : pyobj) : result string :=
  match hint with
  | PClass name => Ok name
  | PGenericAlias name _ => Ok name
  | PUnion _ => Ok "Union"
  | PLiteral _ => Ok "Literal"
  | PTypingAlias name _ => Ok name
  | PUnionType _ =>
      Raise (Exn AttributeError "'types.UnionType' object has no attribute '__name__'")
  | _ => Raise (Exn AttributeError "object has no attribute '__name__'")
  end.

(** [typing.get_args(hint)]. *)
Definition get_args (hint : pyobj) : list pyobj :=
  match hint with
  | PGenericAlias _ args => args
  | PUnion args => args
  | PLiteral items => items
  | PUnionType args => args
  | PTypingAlias _ args => args
  | _ => []
  end.

(** The first loop: one entry per parameter that is kept. *)
Definition add_parameter (boilerplate_args : list string)
    (inputs : list (string * gmap string pyobj)) (p : parameter) : list (string * gmap string pyobj) :=
  let name := p_name p in
  if String.eqb name "self" || bool_decide (name ∈ boilerplate_args) then inputs
  else
    let inputs := OrderedDict.set name {[ "name" := PStr name ]} inputs in
    match p_default p with
    | Some d =>
        if is_scalar d then OrderedDict.alter (insert "default" d) name inputs
        else inputs
    | None => inputs
    end.

Definition collect_inputs (params : list parameter) (boilerplate_args : list string)
    : list (string * gmap string pyobj) :=
  fold_left (add_parameter boilerplate_args) params [].

(** The body of the second loop after the test for a missing hint: what
    the hint adds to the entry [input_data]. *)
Definition apply_type_hint (type_hint : pyobj) (input_data : gmap string pyobj)
    : result (gmap string pyobj) :=
  (unwrapped <-
     match type_hint with
     | PGenericAlias name args =>
         elem <- index (get_args type_hint) 0 ;;
         Ok (<[ "generic_type" := PStr name ]> input_data, elem)
     | _ => Ok (input_data, type_hint)
     end ;;
   let input_data := fst unwrapped in
   let type_hint := snd unwrapped in
   match type_hint with
   | PUnion _ =>
       names <- map_result getattr_name (get_args type_hint) ;;
       Ok (<[ "type" := PList (map PStr names) ]> input_data)
   | _ =>
       name <- getattr_name type_hint ;;
       if String.eqb name "Literal"
       then Ok (<[ "enum_items" := PList (get_args type_hint) ]>
                  (<[ "type" := PStr "Literal" ]> input_data))
       else Ok (<[ "type" := PStr name ]> input_data)
   end)%py.

(** The second loop, over the keys of [inputs]. *)
Fixpoint apply_type_hints (type_hints : gmap string pyobj) (names : list string)
    (inputs : list (string * gmap string pyobj)) : result (list (string * gmap string pyobj)) :=
  match names with
  | [] => Ok inputs
  | input_name :: rest =>
      let type_hint := default PNone (type_hints !! input_name) in
      if is_None type_hint then apply_type_hints type_hints rest inputs
      else
        match OrderedDict.lookup input_name inputs with
        | None => Raise (Exn KeyError input_name)
        | Some input_data =>
            (input_data' <- apply_type_hint type_hint input_data ;;
             apply_type_hints type_hints rest
               (OrderedDict.alter (fun _ => input_data') input_name inputs))%py
        end
  end.

(** What the docstring loop updates. *)
Record doc_state : Type := DocState {
  ds_name : option string;
  ds_output : option (gmap string pyobj);
  ds_inputs : list (string * gmap string pyobj);
  ds_description : string
}.

(** One iteration of the docstring loop, on line [i]. *)
Definition parse_line (i : nat) (line : string) (st : doc_state) : result doc_state :=
  let line := strip line in
  if (i =? 0)%nat then
    Ok (DocState (Some line) (ds_output st) (ds_inputs st) (ds_description st))
  else if startswith ":return:" line then
    (name <- index (split COLON line) 2 ;;
     description <- index (split COLON line) 3 ;;
     Ok (DocState (ds_name st)
           (Some {[ "name" := PStr (strip name); "description" := PStr (strip description) ]})
           (ds_inputs st) (ds_description st)))%py
  else if startswith ":param" line then
    (field <- index (split COLON line) 1 ;;
     let param_name := replace "param " EmptyString (strip field) in
     if OrderedDict.mem param_name (ds_inputs st) then
       description <- index (split COLON line) 2 ;;
       Ok (DocState (ds_name st) (ds_output st)
             (OrderedDict.alter (insert "description" (PStr (strip description)))
                param_name (ds_inputs st))
             (ds_description st))
     else Ok st)%py
  else if startswith ":filter_glob" line then
    (field <- index (split COLON line) 1 ;;
     let param_name := replace "filter_glob " EmptyString (strip field) in
     if OrderedDict.mem param_name (ds_inputs st) then
       pattern <- index (split COLON line) 2 ;;
       Ok (DocState (ds_name st) (ds_output st)
             (OrderedDict.alter (insert "filter_glob" (PStr (strip pattern)))
                param_name (ds_inputs st))
             (ds_description st))
     else Ok st)%py
  else if (i =? 2)%nat then
    Ok (DocState (ds_name st) (ds_output st) (ds_inputs st) (ds_description st ++ line))
  else if (2 <? i)%nat then
    Ok (DocState (ds_name st) (ds_output st) (ds_inputs st)
          (ds_description st ++ String NL line))
  else Ok st.

(** [for i, line in enumerate(lines)], from index [i]. *)
Fixpoint parse_lines (i : nat) (lines : list string) (st : doc_state) : result doc_state :=
  match lines with
  | [] => Ok st
  | line :: rest =>
      (st' <- parse_line i line st ;;
       parse_lines (S i) rest st')%py
  end.

Definition _extract_docs (cls : pyclass) (method_name : string)
    (boilerplate_args : option (list string)) : result Docs :=
  (method <- getattr_method cls method_name ;;
   let boilerplate_args := default [] boilerplate_args in
   let inputs := collect_inputs (m_params method) boilerplate_args in
   (* Parse data from type hints. *)
   type_hints <- m_type_hints method ;;
   inputs <- apply_type_hints type_hints (OrderedDict.keys inputs) inputs ;;
   (* Parse the docstring. *)
   match m_doc method with
   | Some doc =>
       st <- parse_lines 0 (split NL doc) (DocState None None inputs EmptyString) ;;
       Ok (MkDocs cls (ds_name st) (ds_output st) (Some (strip (ds_description st)))
             (ds_inputs st))
   | None => Ok (MkDocs cls None None None inputs)
   end)%py.

(** [str(submodule)] for the module made from the file location. *)
Definition module_repr (env : environment) (submodule_name : string) : string :=
  "<module '" ++ submodule_name ++ "' from '" ++ pkg_dir env ++ "/recipes/"
    ++ submodule_name ++ ".py'>".

(** [spec.loader.exec_module(submodule)]: runs the file at the location. *)
Definition exec_module (env : environment) (submodule_name : string) : result (gmap string pyclass) :=
  match recipe_files env !! submodule_name with
  | Some r => r
  | None =>
      Raise (Exn FileNotFoundError
               ("[Errno 2] No such file or directory: '" ++ pkg_dir env ++ "/recipes/"
                  ++ submodule_name ++ ".py'"))
  end.

Definition extract_docs (env : environment) (submodule_name cls_name method_name : string)
    (boilerplate_args : option (list string)) : eff (option Docs) :=
  try_except
    (submodule <- lift (exec_module env submodule_name) ;;
     try_except
       (cls <- lift (getattr_module submodule_name submodule cls_name) ;;
        docs <- lift (_extract_docs cls method_name boilerplate_args) ;;
        eret (Some docs))
       AttributeError
       (fun e => print (exn_msg e) ;;; eret None))%eff
    ModuleNotFoundError
    (fun e =>
       (print ("Error : IFCPatch " ++ module_repr env submodule_name
                 ++ " could not load because : " ++ exn_msg e) ;;;
        eret None)%eff).

(** ** Notions used to state the properties of [execute] *)

(** The positional arguments of the constructor calls recorded in a trace. *)
Fixpoint init_calls (t : list event) : list (list pyobj) :=
  match t with
  | [] => []
  | EvInit argv :: t' => argv :: init_calls t'
  | _ :: t' => init_calls t'
  end.

Definition add_events (evs : list event) (w : world) : world :=
  World (trace w ++ evs) (stdout w) (fs w).

(** What the optional logging configuration adds to the trace. *)
Definition log_events (args : ArgumentsDict) : list event :=
  match log args with
  | Some filename => [EvBasicConfig filename]
  | None => []
  end.

(** The input policy the recipe class declares. *)
Definition policy_of (cls : pyclass) : pyobj :=
  default (PStr "IGNORED") (c_attrs cls !! "input_argument").

(** The raw input path is missing from the request, or is an empty (falsy)
    object. *)
Definition input_absent_or_empty (args : ArgumentsDict) : Prop :=
  match input args with
  | None => True
  | Some v => truthy v = false
  end.

(** The request has the document key. *)
Definition carries_document (args : ArgumentsDict) : Prop := is_Some (file args).

(** [execute] stopped on one of its two validation errors, before any
    constructor call. *)
Definition validation_failure (args : ArgumentsDict) (w : world)
    (out : world * result pyobj) : Prop :=
  (exists what, out.2 = Raise (Exn ValueError (requires_msg (recipe args) what)))
  /\ init_calls (trace out.1) = init_calls (trace w).

(** The recipe of the request resolves to the class [cls]. *)
Definition resolves (env : environment) (args : ArgumentsDict) (cls : pyclass) : Prop :=
  exists m, recipe_files env !! recipe args = Some (Ok m) /\ m !! "Patcher" = Some cls.

(** The request passes the validation rule for [cls]. *)
Definition passes_validation (cls : pyclass) (args : ArgumentsDict) : bool :=
  if py_eq_str (policy_of cls) "REQUIRED"
  then truthy (dict_get (input args))
  else bool_decide (is_Some (file args)).

(** What happens from the constructor call on. *)
Definition run_patcher (cls : pyclass) (argv : list pyobj) (w : world) : world * result pyobj :=
  match c_init cls argv with
  | Raise e => (add_events [EvInit argv] w, Raise e)
  | Ok patcher =>
      match c_patch cls patcher with
      | Raise e => (add_events [EvInit argv; EvPatch] w, Raise e)
      | Ok patcher' =>
          (add_events [EvInit argv; EvPatch] w,
           match patcher' !! "file" with
           | None => getattr_instance cls patcher' "file"
           | Some original => Ok (default original (patcher' !! "file_patched"))
           end)
      end
  end.

(** The positional arguments the constructor is called with: spread when
    [__init__] has a docstring, as one list otherwise. *)
Definition constructor_argv (args : ArgumentsDict) (doc : option string) : result (list pyobj) :=
  let arguments := default (PList []) (arguments args) in
  let logger := PLogger "IFCPatch" in
  match doc with
  | Some _ =>
      (spread <- unpack arguments ;;
       Ok ([dict_get (input args); dict_get (file args); logger] ++ spread))%py
  | None => Ok [dict_get (input args); dict_get (file args); logger; arguments]
  end.

(** ** Notions used to state the properties of schema extraction *)

(** The parameter is kept by the first loop. *)
Definition kept (boilerplate_args : list string) (p : parameter) : bool :=
  negb (String.eqb (p_name p) "self") && negb (bool_decide (p_name p ∈ boilerplate_args)).

(** The entry the first loop makes for a parameter. *)
Definition initial_entry (p : parameter) : gmap string pyobj :=
  match p_default p with
  | Some d =>
      if is_scalar d then <[ "default" := d ]> {[ "name" := PStr (p_name p) ]}
      else {[ "name" := PStr (p_name p) ]}
  | None => {[ "name" := PStr (p_name p) ]}
  end.

Definition entry_of (p : parameter) : string * gmap string pyobj :=
  (p_name p, initial_entry p).

(** What the second loop does to the entry of [name]. *)
Definition hinted_entry (type_hints : gmap string pyobj) (name : string)
    (input_data : gmap string pyobj) : result (gmap string pyobj) :=
  let type_hint := default PNone (type_hints !! name) in
  if is_None type_hint then Ok input_data else apply_type_hint type_hint input_data.

(** The names of the members of a union, as the ["type"] field has them. *)
Definition member_names (members : list pyobj) : result pyobj :=
  (names <- map_result getattr_name members ;; Ok (PList (map PStr names)))%py.

(** Two entries that differ at most in what the docstring provides. *)
Definition same_schema_fields (e e' : gmap string pyobj) : Prop :=
  forall field, field <> "description" -> field <> "filter_glob" -> e' !! field = e !! field.

(** The second loop on one item of [inputs]. *)
Definition hinted_item (type_hints : gmap string pyobj) (item : string * gmap string pyobj)
    : result (string * gmap string pyobj) :=
  (input_data <- hinted_entry type_hints item.1 item.2 ;; Ok (item.1, input_data))%py.

(** Two dictionaries of inputs with the same keys in the same order and
    entries that differ at most in what the docstring provides. *)
Definition same_schema (inputs inputs' : list (string * gmap string pyobj)) : Prop :=
  Forall2 (fun x y => y.1 = x.1 /\ same_schema_fields x.2 y.2) inputs inputs'.

(** The ["type"] field of a hint that is not unwrapped: the names of the
    members for a union, the name of the hint otherwise. *)
Definition plain_type (hint : pyobj) : result pyobj :=
  match hint with
  | PUnion members => member_names members
  | _ => (name <- getattr_name hint ;; Ok (PStr name))%py
  end.

(** The default the schema records for a parameter. *)
Definition recorded_default (p : parameter) : option pyobj :=
  match p_default p with
  | Some d => if is_scalar d then Some d else None
  | None => None
  end.

(** The body of the inner [try] of [extract_docs], on the loaded module. *)
Definition introspect (submodule_name cls_name method_name : string)
    (boilerplate_args : option (list string)) (submodule : gmap string pyclass) : result Docs :=
  (cls <- getattr_module submodule_name submodule cls_name ;;
   _extract_docs cls method_name boilerplate_args)%py.

(** The world after a diagnostic has been printed. *)
Definition printed (s : string) (w : world) : world :=
  World (trace w) (stdout w ++ [s]) (fs w).

Definition index_error : exn := Exn IndexError "list index out of range".

(** ** Sample recipes and requests *)

Definition world0 : world := World [] [] ∅.

(** A constructor that stores its second argument as [self.file]. *)
Definition store_file (argv : list pyobj) : result (gmap string pyobj) :=
  match argv with
  | _ :: f :: _ :: _ => Ok {[ "file" := f ]}
  | _ => Raise (Exn TypeError "__init__() missing required positional arguments")
  end.

Definition extract_elements_init : pymethod :=
  PyMethod
    [MkParameter "self" None; MkParameter "src" None; MkParameter "file" None;
     MkParameter "logger" None; MkParameter "query" (Some (PStr "IfcWall"))]
    (Ok {[ "src" := PClass "str"; "query" := PClass "str" ]})
    (Some "Extract certain elements into a new model").

(** A recipe with a documented constructor and no declared policy. *)
Definition extract_elements : pyclass :=
  PyClass "Patcher" ∅ {[ "__init__" := extract_elements_init ]}
    store_file (fun inst => Ok inst).

(** A recipe that requires the raw input path. *)
Definition requires_input : pyclass :=
  PyClass "Patcher" {[ "input_argument" := PStr "REQUIRED" ]}
    {[ "__init__" := PyMethod [MkParameter "self" None; MkParameter "src" None;
                               MkParameter "file" None; MkParameter "logger" None]
                       (Ok ∅) None ]}
    store_file (fun inst => Ok inst).

(** A recipe whose instances have [file_patched] and no [file]: its
    undocumented [__init__(self, src, file, logger, args)] sets
    [self.file_patched] only. *)
Definition only_patched_init : pymethod :=
  PyMethod [MkParameter "self" None; MkParameter "src" None; MkParameter "file" None;
            MkParameter "logger" None; MkParameter "args" None]
    (Ok ∅) None.

Definition only_patched : pyclass :=
  PyClass "Patcher" ∅ {[ "__init__" := only_patched_init ]}
    (fun argv =>
       match argv with
       | [_; _; _; _] => Ok {[ "file_patched" := PStr "/tmp/patched.ifc" ]}
       | _ => Raise (Exn TypeError "__init__() takes 5 positional arguments")
       end)
    (fun inst => Ok inst).

Definition sample_env : environment :=
  Environment "/site-packages/ifcpatch"
    {[ "ExtractElements" := Ok {[ "Patcher" := extract_elements ]};
       "Ifc2Sql" := Ok {[ "Patcher" := requires_input ]};
       "OnlyPatched" := Ok {[ "Patcher" := only_patched ]} ]}.

Definition request (recipe : string) (file input arguments : option pyobj) : ArgumentsDict :=
  {| recipe := recipe; file := file; input := input; log := None; arguments := arguments |}.

(** ** Sample classes for schema extraction *)

(** [def __init__(self, a: str, b: int = 5)], without a docstring. *)
Definition ab_init : pymethod :=
  PyMethod [MkParameter "self" None; MkParameter "a" None; MkParameter "b" (Some (PInt 5))]
    (Ok {[ "a" := PClass "str"; "b" := PClass "int" ]}) None.

Definition ab_class : pyclass :=
  PyClass "Patcher" ∅ {[ "__init__" := ab_init ]} store_file (fun inst => Ok inst).

Definition ab_docs : Docs :=
  MkDocs ab_class None None None
    [("a", {[ "name" := PStr "a"; "type" := PStr "str" ]});
     ("b", {[ "name" := PStr "b"; "default" := PInt 5; "type" := PStr "int" ]})].

(** [def __init__(self, src, file, logger, mode: Literal["x", "y"],
    key: Union[int, str], names: list[str], depth: int, extra)]. *)
Definition hinted_hints : gmap string pyobj :=
  {[ "mode" := PLiteral [PStr "x"; PStr "y"];
     "key" := PUnion [PClass "int"; PClass "str"];
     "names" := PGenericAlias "list" [PClass "str"];
     "depth" := PClass "int" ]}.

Definition hinted_init : pymethod :=
  PyMethod
    [MkParameter "self" None; MkParameter "src" None; MkParameter "file" None;
     MkParameter "logger" None; MkParameter "mode" None; MkParameter "key" None;
     MkParameter "names" None; MkParameter "depth" None; MkParameter "extra" None]
    (Ok hinted_hints) None.

Definition hinted_class : pyclass :=
  PyClass "Patcher" ∅ {[ "__init__" := hinted_init ]} store_file (fun inst => Ok inst).

Definition hinted_docs : Docs :=
  MkDocs hinted_class None None None
    [("mode", {[ "name" := PStr "mode"; "type" := PStr "Literal";
                 "enum_items" := PList [PStr "x"; PStr "y"] ]});
     ("key", {[ "name" := PStr "key"; "type" := PList [PStr "int"; PStr "str"] ]});
     ("names", {[ "name" := PStr "names"; "generic_type" := PStr "list";
                  "type" := PStr "str" ]});
     ("depth", {[ "name" := PStr "depth"; "type" := PStr "int" ]});
     ("extra", {[ "name" := PStr "extra" ]})].

(** [def __init__(self, key: int | str)]: the hint is a
    [types.UnionType]. *)
Definition union_type_class : pyclass :=
  PyClass "Patcher" ∅
    {[ "__init__" := PyMethod [MkParameter "self" None; MkParameter "key" None]
                       (Ok {[ "key" := PUnionType [PClass "int"; PClass "str"] ]}) None ]}
    (fun _ => Ok ∅) (fun inst => Ok inst).

(** [def __init__(self, names: typing.List[str])]: the hint is an alias of
    the [typing] module. *)
Definition typing_list_class : pyclass :=
  PyClass "Patcher" ∅
    {[ "__init__" := PyMethod [MkParameter "self" None; MkParameter "names" None]
                       (Ok {[ "names" := PTypingAlias "List" [PClass "str"] ]}) None ]}
    (fun _ => Ok ∅) (fun inst => Ok inst).

(** A docstring from its lines. *)
Definition docstring (lines : list string) : string := String.concat (String NL EmptyString) lines.

(** A class whose [__init__(self, a, xy)] has the given docstring. *)
Definition documented (doc : string) : pyclass :=
  PyClass "Patcher" ∅
    {[ "__init__" := PyMethod [MkParameter "self" None; MkParameter "a" None;
                               MkParameter "xy" None] (Ok ∅) (Some doc) ]}
    store_file (fun inst => Ok inst).

(** Recipe files for schema extraction: one whose docstring has a
    [:return:] line in the style of this module's own docstrings, one in
    the four-field style, and one whose import fails. *)
Definition schema_env : environment :=
  Environment "/site-packages/ifcpatch"
    {[ "ReturnsNothing" :=
         Ok {[ "Patcher" := documented (docstring ["Reset the model"; EmptyString; ":return: None"]) ]};
       "ReturnsModel" :=
         Ok {[ "Patcher" :=
                 documented (docstring ["Merge models"; EmptyString; ":param a: The first model";
                                        ":return: model: The merged model"]) ]};
       "NeedsNumpy" := Raise (Exn ModuleNotFoundError "No module named 'numpy'") ]}.

(** ** Further notions and samples *)

(** The line is one of the three tag lines of the docstring format. *)
Definition tagged (line : string) : bool :=
  startswith ":return:" line || startswith ":param" line || startswith ":filter_glob" line.

(** The characters of a string. *)
Definition chars (s : string) : list ascii := list_ascii_of_string s.

(** A recipe whose constructor fails. *)
Definition failing_constructor : pyclass :=
  PyClass "Patcher" ∅
    {[ "__init__" := PyMethod [MkParameter "self" None; MkParameter "src" None;
                               MkParameter "file" None; MkParameter "logger" None]
                       (Ok ∅) None ]}
    (fun _ => Raise (Exn (OtherError "RuntimeError") "unsupported schema"))
    (fun inst => Ok inst).

(** * Python string operations on examples *)

Module StringExamples.

Example split_params : split COLON ":param a: b" = [EmptyString; "param a"; " b"].
Proof. reflexivity. Qed.

Example strip_ex : strip "  a b  " = "a b".
Proof. reflexivity. Qed.

Example replace_ex : replace "param " EmptyString "param xparam y" = "xy".
Proof. reflexivity. Qed.

Example split_empty : split COLON EmptyString = [EmptyString].
Proof. reflexivity. Qed.

Example split_return : split COLON ":return: None" = [EmptyString; "return"; " None"].
Proof. reflexivity. Qed.

Example strip_controls : strip (String (ascii_of_nat 9) ("a " ++ String NL EmptyString)) = "a".
Proof. reflexivity. Qed.

Example replace_no_overlap : replace "aa" "b" "aaa" = "ba".
Proof. reflexivity. Qed.

Example replace_prefix_only : replace "param " EmptyString "param a" = "a".
Proof. reflexivity. Qed.

End StringExamples.

(** * Properties of [execute] *)

Module ExecuteProps.

Lemma init_calls_app (t1 t2 : list event) :
  init_calls (t1 ++ t2) = (init_calls t1 ++ init_calls t2)%list.
Proof. induction t1 as [|[] t1 IH]; simpl; congruence. Qed.

Lemma init_calls_log (args : ArgumentsDict) : init_calls (log_events args) = [].
Proof. unfold log_events. destruct (log args); reflexivity. Qed.

Lemma add_events_nil (w : world) : add_events [] w = w.
Proof. destruct w. unfold add_events. simpl. by rewrite app_nil_r. Qed.

Lemma add_events_add (e1 e2 : list event) (w : world) :
  add_events e2 (add_events e1 w) = add_events (e1 ++ e2)%list w.
Proof. unfold add_events. simpl. by rewrite app_assoc. Qed.

Lemma init_calls_add (evs : list event) (w : world) :
  init_calls (trace (add_events evs w)) = (init_calls (trace w) ++ init_calls evs)%list.
Proof. unfold add_events. simpl. apply init_calls_app. Qed.

Lemma truthy_absent (args : ArgumentsDict) :
  truthy (dict_get (input args)) = false <-> input_absent_or_empty args.
Proof. unfold input_absent_or_empty, dict_get. destruct (input args); simpl; tauto. Qed.

(** A request that fails the validation rule: the error, with at most the
    logging configuration done. *)
Lemma execute_rejects env args cls w :
  resolves env args cls ->
  passes_validation cls args = false ->
  run (execute env args) w =
    (add_events (log_events args) w,
     Raise (Exn ValueError
              (requires_msg (recipe args)
                 (if py_eq_str (policy_of cls) "REQUIRED" then "input" else "file")))).
Proof.
  intros (m & Hm & Hc) Hv. unfold passes_validation in Hv.
  unfold execute, get_patch_input_argument_use, import_module, getattr_module, log_events.
  rewrite Hm. cbn. rewrite Hc. cbn. fold (policy_of cls).
  destruct (py_eq_str (policy_of cls) "REQUIRED").
  - rewrite Hv. destruct (log args); cbn; [reflexivity|].
    by rewrite add_events_nil.
  - destruct (file args) as [v|].
    + exfalso. rewrite bool_decide_eq_false in Hv. apply Hv. by exists v.
    + destruct (log args); cbn; [reflexivity|]. by rewrite add_events_nil.
Qed.

(** A request that passes it: the constructor is looked up, its arguments
    are built, and the recipe runs. *)
Lemma execute_accepts env args cls w :
  resolves env args cls ->
  passes_validation cls args = true ->
  run (execute env args) w =
    match getattr_method cls "__init__" with
    | Raise e => (add_events (log_events args) w, Raise e)
    | Ok init =>
        match constructor_argv args (m_doc init) with
        | Raise e => (add_events (log_events args) w, Raise e)
        | Ok argv => run_patcher cls argv (add_events (log_events args) w)
        end
    end.
Proof.
  intros (m & Hm & Hc) Hv. unfold passes_validation in Hv.
  assert (Hval : forall w0,
    run (if py_eq_str (policy_of cls) "REQUIRED"
         then if negb (truthy (dict_get (input args)))
              then eraise (Exn ValueError (requires_msg (recipe args) "input"))
              else eret tt
         else match file args with
              | None => eraise (Exn ValueError (requires_msg (recipe args) "file"))
              | Some _ => eret tt
              end) w0 = (w0, Ok tt)).
  { intros w0. destruct (py_eq_str (policy_of cls) "REQUIRED").
    - by rewrite Hv.
    - destruct (file args) as [v|]; [done|].
      rewrite bool_decide_eq_true in Hv. by destruct Hv. }
  unfold execute, get_patch_input_argument_use, import_module, getattr_module.
  rewrite Hm. cbn. rewrite Hc. cbn. fold (policy_of cls).
  set (w0 := add_events (log_events args) w).
  assert (Hlog : run (match log args with
                      | Some filename => emit (EvBasicConfig filename)
                      | None => eret tt
                      end) w = (w0, Ok tt)).
  { unfold w0, log_events. destruct (log args); cbn; [done|]. by rewrite add_events_nil. }
  rewrite Hlog, Hval.
  destruct (getattr_method cls "__init__") as [init|e]; cbn; [|done].
  unfold constructor_argv, run_patcher, getattr_instance.
  destruct (m_doc init); cbn.
  - destruct (unpack _) as [spread|e]; cbn; [|done].
    destruct (c_init cls _) as [p|e]; cbn; [|done].
    destruct (c_patch cls p) as [p'|e]; cbn;
      [destruct (p' !! "file"); cbn|]; unfold add_events; cbn;
      by rewrite <- ?app_assoc.
  - destruct (c_init cls _) as [p|e]; cbn; [|done].
    destruct (c_patch cls p) as [p'|e]; cbn;
      [destruct (p' !! "file"); cbn|]; unfold add_events; cbn;
      by rewrite <- ?app_assoc.
Qed.

Lemma py_eq_str_spec (x : pyobj) (s : string) : py_eq_str x s = true <-> x = PStr s.
Proof.
  destruct x; simpl; try (split; [discriminate|congruence]).
  rewrite String.eqb_eq. split; congruence.
Qed.

Lemma policy_required (cls : pyclass) :
  policy_of cls = PStr "REQUIRED" -> py_eq_str (policy_of cls) "REQUIRED" = true.
Proof. intros ->. reflexivity. Qed.

Lemma policy_not_required (cls : pyclass) :
  policy_of cls <> PStr "REQUIRED" -> py_eq_str (policy_of cls) "REQUIRED" = false.
Proof.
  intros H. destruct (py_eq_str _ _) eqn:E; [|done].
  by apply py_eq_str_spec in E.
Qed.

Lemma snoc_neq {A} (l : list A) (a : A) : (l ++ [a])%list <> l.
Proof. intros H. apply (f_equal length) in H. rewrite length_app in H. simpl in H. lia. Qed.

Lemma run_patcher_calls cls argv w :
  init_calls (trace (run_patcher cls argv w).1) = (init_calls (trace w) ++ [argv])%list.
Proof.
  unfold run_patcher.
  destruct (c_init cls argv) as [p|e]; [destruct (c_patch cls p) as [p'|e']|];
    cbn; rewrite init_calls_app; reflexivity.
Qed.

(** The constructor call of an accepted request, when the constructor is
    found and its arguments can be built. *)
Lemma execute_calls env args cls init argv w :
  resolves env args cls ->
  passes_validation cls args = true ->
  c_methods cls !! "__init__" = Some init ->
  constructor_argv args (m_doc init) = Ok argv ->
  init_calls (trace (run (execute env args) w).1) = (init_calls (trace w) ++ [argv])%list.
Proof.
  intros Hr Hv Hi Ha. rewrite (execute_accepts env args cls w Hr Hv).
  unfold getattr_method. rewrite Hi, Ha, run_patcher_calls, init_calls_add, init_calls_log.
  by rewrite app_nil_r.
Qed.

Lemma accepted_not_failure env args cls w :
  resolves env args cls ->
  passes_validation cls args = true ->
  ~ validation_failure args w (run (execute env args) w).
Proof.
  intros Hr Hv [[what Hwhat] Hcalls].
  rewrite (execute_accepts env args cls w Hr Hv) in Hwhat, Hcalls.
  unfold getattr_method in *.
  destruct (c_methods cls !! "__init__") as [init|]; [|discriminate].
  unfold constructor_argv in *. destruct (m_doc init).
  - destruct (default (PList []) (arguments args)); simpl in *; try discriminate;
      rewrite run_patcher_calls, init_calls_add, init_calls_log, app_nil_r in Hcalls;
      by apply snoc_neq in Hcalls.
  - rewrite run_patcher_calls, init_calls_add, init_calls_log, app_nil_r in Hcalls.
    by apply snoc_neq in Hcalls.
Qed.

Lemma rejected_failure env args cls w :
  resolves env args cls ->
  passes_validation cls args = false ->
  validation_failure args w (run (execute env args) w).
Proof.
  intros Hr Hv. rewrite (execute_rejects env args cls w Hr Hv). split; simpl.
  - eauto.
  - by rewrite init_calls_app, init_calls_log, app_nil_r.
Qed.

(** C1. The validation rule of [execute] depends only on whether the
    policy of the resolved recipe is REQUIRED.  When it is, [execute] stops
    on its validation error, with no constructor call made, if and only if
    the raw input path is absent or empty; a document is not asked for.
    For any other policy (SUPPORTED, IGNORED) it does so if and only if the
    request does not carry the document key; an input path is not asked
    for. *)
Theorem execute_validation_rule env args cls w :
  resolves env args cls ->
  (policy_of cls = PStr "REQUIRED" ->
     validation_failure args w (run (execute env args) w) <-> input_absent_or_empty args)
  /\ (policy_of cls <> PStr "REQUIRED" ->
        validation_failure args w (run (execute env args) w) <-> ~ carries_document args).
Proof.
  intros Hr. split; intros Hp.
  - apply policy_required in Hp. rewrite <- truthy_absent.
    destruct (truthy (dict_get (input args))) eqn:Ht.
    + split; [|discriminate]. intros Hf. exfalso.
      apply (accepted_not_failure env args cls w Hr); [|done].
      unfold passes_validation. by rewrite Hp.
    + split; [done|]. intros _. apply (rejected_failure env args cls w Hr).
      unfold passes_validation. by rewrite Hp.
  - apply policy_not_required in Hp. unfold carries_document.
    destruct (file args) as [v|] eqn:Hfile.
    + split.
      * intros Hf. exfalso. apply (accepted_not_failure env args cls w Hr); [|done].
        unfold passes_validation. rewrite Hp, Hfile. by apply bool_decide_eq_true.
      * intros Hn. exfalso. apply Hn. by exists v.
    + split.
      * intros _ [v Hv]. discriminate.
      * intros _. apply (rejected_failure env args cls w Hr).
        unfold passes_validation. rewrite Hp, Hfile. apply bool_decide_eq_false.
        intros [v Hv]. discriminate.
Qed.

(** C3. For a request that passes validation and whose [arguments] is a
    list, [execute] calls the constructor once, on the raw input path, the
    document and the logger, followed by the items of the list spread as
    positional arguments when [__init__] has a docstring, and by the list
    itself as one argument when it has none. *)
Theorem execute_argument_dispatch env args cls init l w :
  resolves env args cls ->
  passes_validation cls args = true ->
  c_methods cls !! "__init__" = Some init ->
  default (PList []) (arguments args) = PList l ->
  init_calls (trace (run (execute env args) w).1) =
    (init_calls (trace w) ++
     [match m_doc init with
      | Some _ => [dict_get (input args); dict_get (file args); PLogger "IFCPatch"] ++ l
      | None => [dict_get (input args); dict_get (file args); PLogger "IFCPatch"; PList l]
      end])%list.
Proof.
  intros Hr Hv Hi Hl. apply (execute_calls env args cls init); try done.
  unfold constructor_argv. rewrite Hl. by destruct (m_doc init).
Qed.

(** C9. For a policy other than REQUIRED, a request whose document key is
    present with the value [None] passes validation, and the constructor is
    then called with [None] as its document argument. *)
Theorem execute_null_document env args cls init l w :
  resolves env args cls ->
  policy_of cls <> PStr "REQUIRED" ->
  file args = Some PNone ->
  c_methods cls !! "__init__" = Some init ->
  default (PList []) (arguments args) = PList l ->
  ~ validation_failure args w (run (execute env args) w)
  /\ exists argv,
       init_calls (trace (run (execute env args) w).1) = (init_calls (trace w) ++ [argv])%list
       /\ argv !! 1%nat = Some PNone.
Proof.
  intros Hr Hp Hfile Hi Hl. apply policy_not_required in Hp.
  assert (Hv : passes_validation cls args = true).
  { unfold passes_validation. rewrite Hp, Hfile. by apply bool_decide_eq_true. }
  split; [by apply (accepted_not_failure env args cls w Hr)|].
  exists (match m_doc init with
          | Some _ => [dict_get (input args); PNone; PLogger "IFCPatch"] ++ l
          | None => [dict_get (input args); PNone; PLogger "IFCPatch"; PList l]
          end)%list.
  split; [|by destruct (m_doc init)].
  apply (execute_calls env args cls init); try done.
  unfold constructor_argv. rewrite Hl, Hfile. by destruct (m_doc init).
Qed.

(** The value [execute] ends with once the constructor and [patch] have
    run: the lookup of [file] comes first. *)
Lemma execute_output env args cls init argv p p' w :
  resolves env args cls ->
  passes_validation cls args = true ->
  c_methods cls !! "__init__" = Some init ->
  constructor_argv args (m_doc init) = Ok argv ->
  c_init cls argv = Ok p ->
  c_patch cls p = Ok p' ->
  (run (execute env args) w).2 =
    (original <- getattr_instance cls p' "file" ;;
     Ok (default original (p' !! "file_patched")))%py.
Proof.
  intros Hr Hv Hi Ha Hp Hp'. rewrite (execute_accepts env args cls w Hr Hv).
  unfold getattr_method, run_patcher, getattr_instance. rewrite Hi, Ha, Hp, Hp'. simpl.
  by destruct (p' !! "file").
Qed.

(** On an instance that has the original document attribute [file], the
    result is [file_patched] when the instance has one and [file]
    otherwise; and whatever the instance, a value [execute] returns is its
    [file_patched], or its [file] when it has no [file_patched]. *)
Lemma execute_output_with_file env args cls init argv p p' w :
  resolves env args cls ->
  passes_validation cls args = true ->
  c_methods cls !! "__init__" = Some init ->
  constructor_argv args (m_doc init) = Ok argv ->
  c_init cls argv = Ok p ->
  c_patch cls p = Ok p' ->
  (forall original,
     p' !! "file" = Some original ->
     (run (execute env args) w).2 =
       Ok (match p' !! "file_patched" with Some patched => patched | None => original end))
  /\ (forall v,
        (run (execute env args) w).2 = Ok v ->
        p' !! "file_patched" = Some v
        \/ (p' !! "file_patched" = None /\ p' !! "file" = Some v)).
Proof.
  intros Hr Hv Hi Ha Hp Hp'.
  rewrite (execute_output env args cls init argv p p' w); try done.
  unfold getattr_instance. split.
  - intros original Hf. rewrite Hf. simpl. by destruct (p' !! "file_patched").
  - intros v. destruct (p' !! "file") as [original|]; simpl; [|done].
    destruct (p' !! "file_patched") as [patched|]; simpl; intros [= <-]; auto.
Qed.

(** C4. The code misses what the claim says: when the instance, once the
    constructor and [patch] have run, exposes [file_patched] but has no
    [file] attribute, [execute] does not return [file_patched]; it raises
    [AttributeError], because the fallback [patcher.file] of
    [getattr(patcher, "file_patched", patcher.file)] is evaluated before
    [getattr] is called. *)
Theorem execute_file_patched_without_file env args cls init argv p p' patched w :
  resolves env args cls ->
  passes_validation cls args = true ->
  c_methods cls !! "__init__" = Some init ->
  constructor_argv args (m_doc init) = Ok argv ->
  c_init cls argv = Ok p ->
  c_patch cls p = Ok p' ->
  p' !! "file_patched" = Some patched ->
  p' !! "file" = None ->
  run (execute env args) w =
    (add_events (log_events args ++ [EvInit argv; EvPatch]) w,
     Raise (Exn AttributeError ("'" ++ c_name cls ++ "' object has no attribute 'file'"))).
Proof.
  intros Hr Hv Hi Ha Hp Hp' _ Hf. rewrite (execute_accepts env args cls w Hr Hv).
  unfold getattr_method, run_patcher, getattr_instance. rewrite Hi, Ha, Hp, Hp', Hf.
  by rewrite add_events_add.
Qed.

(** A REQUIRED recipe given a document but no input path is rejected. *)
Lemma execute_validation_rule_witness :
  validation_failure (request "Ifc2Sql" (Some (PFile "ISO-10303-21;")) None None) world0
    (run (execute sample_env (request "Ifc2Sql" (Some (PFile "ISO-10303-21;")) None None))
       world0).
Proof.
  destruct (execute_validation_rule sample_env
              (request "Ifc2Sql" (Some (PFile "ISO-10303-21;")) None None) requires_input world0)
    as [Hrequired _].
  - eexists; split; reflexivity.
  - apply Hrequired.
    + reflexivity.
    + exact I.
Defined.

(** The request of the docstring: the argument is spread. *)
Lemma execute_argument_dispatch_witness :
  init_calls (trace (run (execute sample_env
      (request "ExtractElements" (Some (PFile "ISO-10303-21;")) (Some (PStr "input.ifc"))
         (Some (PList [PStr ".IfcWall"])))) world0).1)
  = [[PStr "input.ifc"; PFile "ISO-10303-21;"; PLogger "IFCPatch"; PStr ".IfcWall"]].
Proof.
  apply (execute_argument_dispatch sample_env
           (request "ExtractElements" (Some (PFile "ISO-10303-21;")) (Some (PStr "input.ifc"))
              (Some (PList [PStr ".IfcWall"])))
           extract_elements extract_elements_init [PStr ".IfcWall"] world0).
  - eexists; split; reflexivity.
  - reflexivity.
  - reflexivity.
  - reflexivity.
Defined.

Lemma execute_null_document_witness :
  ~ validation_failure (request "ExtractElements" (Some PNone) None None) world0
      (run (execute sample_env (request "ExtractElements" (Some PNone) None None)) world0)
  /\ exists argv,
       init_calls (trace (run (execute sample_env
                                 (request "ExtractElements" (Some PNone) None None))
                            world0).1) = ([] ++ [argv])%list
       /\ argv !! 1%nat = Some PNone.
Proof.
  apply (execute_null_document sample_env (request "ExtractElements" (Some PNone) None None)
           extract_elements extract_elements_init [] world0).
  - eexists; split; reflexivity.
  - discriminate.
  - reflexivity.
  - reflexivity.
  - reflexivity.
Defined.

(** The recipe [OnlyPatched]: the constructor and [patch] run, the instance
    has [file_patched], and [execute] raises. *)
Lemma execute_file_patched_without_file_witness :
  run (execute sample_env (request "OnlyPatched" (Some (PFile "ISO-10303-21;")) None None))
    world0
  = (World [EvInit [PNone; PFile "ISO-10303-21;"; PLogger "IFCPatch"; PList []]; EvPatch]
       [] ∅,
     Raise (Exn AttributeError "'Patcher' object has no attribute 'file'")).
Proof.
  apply (execute_file_patched_without_file sample_env
           (request "OnlyPatched" (Some (PFile "ISO-10303-21;")) None None)
           only_patched only_patched_init
           [PNone; PFile "ISO-10303-21;"; PLogger "IFCPatch"; PList []]
           {[ "file_patched" := PStr "/tmp/patched.ifc" ]}
           {[ "file_patched" := PStr "/tmp/patched.ifc" ]}
           (PStr "/tmp/patched.ifc") world0).
  - eexists; split; reflexivity.
  - reflexivity.
  - reflexivity.
  - reflexivity.
  - reflexivity.
  - reflexivity.
  - reflexivity.
  - reflexivity.
Defined.

End ExecuteProps.

(** * Properties of [write] *)

Module WriteProps.

Lemma path_exists_true (f : gmap string string) (p : string) :
  path_exists f p = true <-> is_Some (f !! p).
Proof. unfold path_exists. apply bool_decide_eq_true. Qed.

Lemma path_exists_false (f : gmap string string) (p : string) :
  path_exists f p = false <-> f !! p = None.
Proof.
  unfold path_exists. rewrite bool_decide_eq_false. split.
  - intros H. destruct (f !! p) eqn:E; [|done]. exfalso. apply H. eauto.
  - intros -> [v Hv]. discriminate.
Qed.

(** After a move the content is at the destination. *)
Lemma shutil_move_dst (src dst content : string) (f : gmap string string) :
  f !! src = Some content -> shutil_move src dst f !! dst = Some content.
Proof. intros H. unfold shutil_move. rewrite H. apply lookup_insert_eq. Qed.

(** And, unless the destination is the source, no longer at the source. *)
Lemma shutil_move_src (src dst content : string) (f : gmap string string) :
  f !! src = Some content -> src <> dst -> shutil_move src dst f !! src = None.
Proof.
  intros H Hne. unfold shutil_move. rewrite H.
  rewrite lookup_insert_ne by congruence. apply lookup_delete_eq.
Qed.

(** Other paths are not touched. *)
Lemma shutil_move_other (src dst q : string) (f : gmap string string) :
  q <> src -> q <> dst -> shutil_move src dst f !! q = f !! q.
Proof.
  intros H1 H2. unfold shutil_move. destruct (f !! src); [|done].
  rewrite lookup_insert_ne by congruence. by rewrite lookup_delete_ne by congruence.
Qed.

(** C5. [write] dispatches on its output three ways.  [None]: nothing
    happens.  A string naming an existing path: that file is moved, so its
    content is at the target and (the target being another path) no longer
    at its former place, all other paths being left alone.  Any other string:
    the target file holds exactly that text.  A document: the call is that
    of the document's own [write] on the target path. *)
Theorem write_dispatch (output : pyobj) (filepath : string) (w : world) :
  (output = PNone -> run (write output filepath) w = (w, Ok tt))
  /\ (forall s content,
        output = PStr s -> fs w !! s = Some content ->
        exists w', run (write output filepath) w = (w', Ok tt)
          /\ trace w' = trace w /\ stdout w' = stdout w
          /\ fs w' !! filepath = Some content
          /\ (s <> filepath -> fs w' !! s = None)
          /\ (forall q, q <> s -> q <> filepath -> fs w' !! q = fs w !! q))
  /\ (forall s,
        output = PStr s -> fs w !! s = None ->
        run (write output filepath) w
          = (World (trace w) (stdout w) (<[filepath := s]> (fs w)), Ok tt))
  /\ (forall ifc,
        output = PFile ifc ->
        run (write output filepath) w = run (file_write output filepath) w).
Proof.
  repeat split.
  - by intros ->.
  - intros s content -> Hs.
    exists (World (trace w) (stdout w) (shutil_move s filepath (fs w))).
    assert (He : path_exists (fs w) s = true) by (apply path_exists_true; eauto).
    cbn. rewrite He. cbn. repeat split.
    + by apply shutil_move_dst.
    + intros Hne. by apply (shutil_move_src s filepath content).
    + intros q H1 H2. by apply shutil_move_other.
  - intros s -> Hs. apply path_exists_false in Hs. cbn. by rewrite Hs.
  - by intros ifc ->.
Qed.

(** Writing [None] leaves an existing target as it is; a returned temporary
    path is moved onto the target; other text becomes the content. *)
Lemma write_dispatch_witness :
  run (write PNone "out.ifc") (World [] [] {[ "out.ifc" := "old" ]})
    = (World [] [] {[ "out.ifc" := "old" ]}, Ok tt)
  /\ (exists w',
        run (write (PStr "/tmp/x.ifc") "out.ifc") (World [] [] {[ "/tmp/x.ifc" := "DATA" ]})
          = (w', Ok tt)
        /\ fs w' !! "out.ifc" = Some "DATA" /\ fs w' !! "/tmp/x.ifc" = None)
  /\ fs (run (write (PStr "hello world") "out.txt") world0).1 !! "out.txt"
       = Some "hello world".
Proof.
  split; [|split].
  - by apply (write_dispatch PNone "out.ifc" (World [] [] {[ "out.ifc" := "old" ]})).
  - destruct (write_dispatch (PStr "/tmp/x.ifc") "out.ifc"
                (World [] [] {[ "/tmp/x.ifc" := "DATA" ]}))
      as (_ & Hmove & _).
    destruct (Hmove "/tmp/x.ifc" "DATA" eq_refl eq_refl)
      as (w' & Hrun & _ & _ & Hdst & Hsrc & _).
    exists w'. split; [exact Hrun|]. split; [exact Hdst|]. apply Hsrc. discriminate.
  - destruct (write_dispatch (PStr "hello world") "out.txt" world0) as (_ & _ & Htext & _).
    rewrite (Htext "hello world" eq_refl eq_refl). reflexivity.
Defined.

End WriteProps.

(** * Properties of schema extraction *)

Module OrderedDictFacts.
Section facts.
Context {V : Type}.
Implicit Types (d : list (string * V)) (k : string) (v : V).

Lemma lookup_None k d : OrderedDict.lookup k d = None <-> k ∉ OrderedDict.keys d.
Proof.
  induction d as [|[k' v'] d IH]; simpl.
  - split; [intros _; apply not_elem_of_nil|done].
  - rewrite not_elem_of_cons. destruct (String.eqb_spec k k') as [->|Hne].
    + split; [discriminate|]. intros [H _]. done.
    + rewrite IH. tauto.
Qed.

Lemma mem_keys k d : OrderedDict.mem k d = true <-> k ∈ OrderedDict.keys d.
Proof.
  unfold OrderedDict.mem. destruct (OrderedDict.lookup k d) eqn:E.
  - split; [|done]. intros _. destruct (decide (k ∈ OrderedDict.keys d)) as [|Hn]; [done|].
    apply lookup_None in Hn. congruence.
  - apply lookup_None in E. split; [discriminate|done].
Qed.

Lemma set_fresh k v d : k ∉ OrderedDict.keys d -> OrderedDict.set k v d = (d ++ [(k, v)])%list.
Proof.
  induction d as [|[k' v'] d IH]; simpl; [done|].
  rewrite not_elem_of_cons. intros [Hne Hd].
  destruct (String.eqb_spec k k'); [done|]. by rewrite IH.
Qed.

Lemma alter_last (f : V -> V) k v d :
  k ∉ OrderedDict.keys d ->
  OrderedDict.alter f k (d ++ (k, v) :: nil)%list = (d ++ [(k, f v)])%list.
Proof.
  induction d as [|[k' v'] d IH]; simpl.
  - intros _. by rewrite String.eqb_refl.
  - rewrite not_elem_of_cons. intros [Hne Hd].
    destruct (String.eqb_spec k k'); [done|]. by rewrite IH.
Qed.

Lemma alter_middle (f : V -> V) k v d d' :
  k ∉ OrderedDict.keys d ->
  OrderedDict.alter f k (d ++ (k, v) :: d')%list = (d ++ (k, f v) :: d')%list.
Proof.
  induction d as [|[k' v'] d IH]; simpl.
  - intros _. by rewrite String.eqb_refl.
  - rewrite not_elem_of_cons. intros [Hne Hd].
    destruct (String.eqb_spec k k'); [done|]. by rewrite IH.
Qed.

Lemma lookup_middle k v d d' :
  k ∉ OrderedDict.keys d -> OrderedDict.lookup k (d ++ (k, v) :: d')%list = Some v.
Proof.
  induction d as [|[k' v'] d IH]; simpl.
  - intros _. by rewrite String.eqb_refl.
  - rewrite not_elem_of_cons. intros [Hne Hd].
    destruct (String.eqb_spec k k'); [done|]. by rewrite IH.
Qed.

Lemma keys_alter (f : V -> V) k d : OrderedDict.keys (OrderedDict.alter f k d) = OrderedDict.keys d.
Proof.
  induction d as [|[k' v'] d IH]; simpl; [done|].
  destruct (String.eqb k k'); simpl; [done|]. by rewrite IH.
Qed.

Lemma lookup_alter (f : V -> V) k k' d :
  OrderedDict.lookup k' (OrderedDict.alter f k d) =
    if String.eqb k' k then f <$> OrderedDict.lookup k' d else OrderedDict.lookup k' d.
Proof.
  induction d as [|[k0 v0] d IH]; simpl.
  - by destruct (String.eqb k' k).
  - destruct (String.eqb_spec k k0) as [->|Hne]; simpl.
    + destruct (String.eqb_spec k' k0) as [->|Hne']; [done|done].
    + destruct (String.eqb_spec k' k0) as [->|Hne'].
      * destruct (String.eqb_spec k0 k); [congruence|done].
      * apply IH.
Qed.

Lemma keys_app d d' : OrderedDict.keys (d ++ d')%list = (OrderedDict.keys d ++ OrderedDict.keys d')%list.
Proof. unfold OrderedDict.keys. apply map_app. Qed.
End facts.
End OrderedDictFacts.

Module SchemaProps.
Import OrderedDictFacts.

(** The first loop appends, in order, one entry per kept parameter. *)
Lemma collect_inputs_acc boilerplate_args params acc :
  NoDup (OrderedDict.keys acc ++ map p_name params)%list ->
  fold_left (add_parameter boilerplate_args) params acc =
    (acc ++ map entry_of (filter (fun p => kept boilerplate_args p = true) params))%list.
Proof.
  revert acc. induction params as [|p params IH]; intros acc Hnd; simpl.
  - by rewrite app_nil_r.
  - assert (Hfresh : p_name p ∉ OrderedDict.keys acc).
    { apply NoDup_app in Hnd as (_ & Hd & _). intros Hin. apply (Hd _ Hin). left. }
    assert (Hnd' : forall v, NoDup (OrderedDict.keys (acc ++ [(p_name p, v)]) ++ map p_name params)%list).
    { intros v. rewrite keys_app. simpl. rewrite <- app_assoc. exact Hnd. }
    unfold add_parameter at 2, kept. rewrite filter_cons.
    destruct (String.eqb (p_name p) "self" || bool_decide (p_name p ∈ boilerplate_args)) eqn:E.
    + rewrite IH.
      * destruct (decide _) as [Hk|Hk]; [|done].
        apply andb_true_iff in Hk as [H1 H2]. apply negb_true_iff in H1, H2.
        rewrite H1, H2 in E. discriminate.
      * apply NoDup_app in Hnd as (H1 & H2 & H3). apply NoDup_app. split; [done|].
        split; [|by apply NoDup_cons in H3 as [_ ?]].
        intros x Hx Hx'. apply (H2 x Hx). by right.
    + apply orb_false_iff in E as [E1 E2]. rewrite decide_True by by rewrite E1, E2.
      rewrite set_fresh by done. simpl.
      unfold entry_of at 1, initial_entry.
      destruct (p_default p) as [d|]; [destruct (is_scalar d)|].
      * rewrite alter_last by done. rewrite IH by apply Hnd'. by rewrite <- app_assoc.
      * rewrite IH by apply Hnd'. by rewrite <- app_assoc.
      * rewrite IH by apply Hnd'. by rewrite <- app_assoc.
Qed.

Lemma collect_inputs_spec params boilerplate_args :
  NoDup (map p_name params) ->
  collect_inputs params boilerplate_args =
    map entry_of (filter (fun p => kept boilerplate_args p = true) params).
Proof. intros Hnd. unfold collect_inputs. by rewrite collect_inputs_acc. Qed.

Local Arguments apply_type_hint : simpl never.

(** The second loop maps [hinted_item] over the entries, in order. *)
Lemma apply_type_hints_acc type_hints pre rest :
  NoDup (OrderedDict.keys (pre ++ rest)) ->
  apply_type_hints type_hints (OrderedDict.keys rest) (pre ++ rest)%list =
    (rest' <- map_result (hinted_item type_hints) rest ;; Ok (pre ++ rest')%list)%py.
Proof.
  revert pre. induction rest as [|[k e] rest IH]; intros pre Hnd; simpl.
  - reflexivity.
  - assert (Hfresh : k ∉ OrderedDict.keys pre).
    { rewrite keys_app in Hnd. apply NoDup_app in Hnd as (_ & Hd & _).
      intros Hin. apply (Hd _ Hin). left. }
    assert (Hnd' : forall e', NoDup (OrderedDict.keys ((pre ++ [(k, e')]) ++ rest))).
    { intros e'. rewrite <- app_assoc. simpl. rewrite keys_app in *. exact Hnd. }
    assert (Hstep : forall e',
      apply_type_hints type_hints (OrderedDict.keys rest) (pre ++ (k, e') :: rest)%list =
        (rest' <- map_result (hinted_item type_hints) rest ;; Ok (pre ++ (k, e') :: rest')%list)%py).
    { intros e'. specialize (IH (pre ++ [(k, e')])%list (Hnd' e')).
      rewrite <- app_assoc in IH. simpl in IH. rewrite IH.
      destruct (map_result _ rest); simpl; [|done]. by rewrite <- app_assoc. }
    unfold hinted_item at 1, hinted_entry. simpl.
    rewrite lookup_middle by done.
    destruct (is_None (default PNone (type_hints !! k))); simpl.
    + rewrite Hstep. by destruct (map_result _ rest).
    + destruct (apply_type_hint _ e) as [e'|err]; simpl; [|done].
      rewrite alter_middle by done. rewrite Hstep.
      by destruct (map_result _ rest).
Qed.

Lemma apply_type_hints_spec type_hints inputs :
  NoDup (OrderedDict.keys inputs) ->
  apply_type_hints type_hints (OrderedDict.keys inputs) inputs =
    map_result (hinted_item type_hints) inputs.
Proof.
  intros Hnd. pose proof (apply_type_hints_acc type_hints [] inputs Hnd) as H.
  simpl in H. rewrite H. by destruct (map_result _ inputs).
Qed.

Lemma map_result_Forall2 {A B} (f : A -> result B) (l : list A) (l' : list B) :
  map_result f l = Ok l' -> Forall2 (fun a b => f a = Ok b) l l'.
Proof.
  revert l'. induction l as [|a l IH]; intros l' H; simpl in H.
  - injection H as <-. constructor.
  - destruct (f a) as [b|] eqn:Ea; simpl in H; [|done].
    destruct (map_result f l) as [bs|]; simpl in H; [|done].
    injection H as <-. constructor; [done|]. by apply IH.
Qed.

(** *** The docstring loop keeps the fields of the first two loops *)

Lemma same_schema_fields_refl e : same_schema_fields e e.
Proof. by intros f _ _. Qed.

Lemma same_schema_refl inputs : same_schema inputs inputs.
Proof. induction inputs; constructor; [split; [done|apply same_schema_fields_refl]|done]. Qed.

Lemma same_schema_trans a b c : same_schema a b -> same_schema b c -> same_schema a c.
Proof.
  intros Hab. revert c. induction Hab as [|x y a b [Hk Hf] Hab IH]; intros c Hbc.
  - inversion Hbc. constructor.
  - inversion Hbc as [|y' z b' c' [Hk' Hf'] Hbc']; subst. constructor.
    + split; [congruence|]. intros f H1 H2. rewrite (Hf' f H1 H2). by apply Hf.
    + by apply IH.
Qed.

Lemma same_schema_alter (field : string) (v : pyobj) (k : string) inputs :
  field = "description" \/ field = "filter_glob" ->
  same_schema inputs (OrderedDict.alter (insert field v) k inputs).
Proof.
  intros Hfield. induction inputs as [|[k' e] inputs IH]; simpl; [constructor|].
  destruct (String.eqb k k').
  - constructor; [|apply same_schema_refl]. split; [done|]. simpl.
    intros f H1 H2. apply lookup_insert_ne. destruct Hfield; congruence.
  - constructor; [|done]. split; [done|apply same_schema_fields_refl].
Qed.

Lemma parse_line_schema i line st st' :
  parse_line i line st = Ok st' -> same_schema (ds_inputs st) (ds_inputs st').
Proof.
  unfold parse_line. intros H.
  repeat match type of H with
  | (if ?b then _ else _) = _ => destruct b
  | rbind ?m _ = _ => destruct m; simpl in H; [|discriminate]
  | Ok _ = Ok _ => injection H as <-; simpl
  end; try apply same_schema_refl; apply same_schema_alter; auto.
Qed.

Lemma parse_lines_schema lines i st st' :
  parse_lines i lines st = Ok st' -> same_schema (ds_inputs st) (ds_inputs st').
Proof.
  revert i st. induction lines as [|line lines IH]; intros i st H; simpl in H.
  - injection H as <-. apply same_schema_refl.
  - destruct (parse_line i line st) as [st1|] eqn:E; simpl in H; [|done].
    eapply same_schema_trans; [by eapply parse_line_schema|by eapply IH].
Qed.

(** *** From the three loops to the result *)

Lemma lookup_assoc {V} (l : list (string * V)) (k : string) (v : V) :
  NoDup (OrderedDict.keys l) -> (k, v) ∈ l -> OrderedDict.lookup k l = Some v.
Proof.
  induction l as [|[k' v'] l IH]; simpl; intros Hnd Hin.
  - by apply elem_of_nil in Hin.
  - apply NoDup_cons in Hnd as [Hk Hnd]. apply elem_of_cons in Hin as [Heq|Hin].
    + injection Heq as -> ->. by rewrite String.eqb_refl.
    + destruct (String.eqb_spec k k') as [->|Hne]; [|by apply IH].
      exfalso. apply Hk. unfold OrderedDict.keys. apply list_elem_of_fmap.
      by exists (k', v).
Qed.

Lemma keys_entries (ps : list parameter) : OrderedDict.keys (map entry_of ps) = map p_name ps.
Proof. unfold OrderedDict.keys. rewrite map_map. reflexivity. Qed.

Lemma NoDup_kept_names boilerplate_args (params : list parameter) :
  NoDup (map p_name params) ->
  NoDup (map p_name (filter (fun p => kept boilerplate_args p = true) params)).
Proof.
  induction params as [|p params IH]; simpl; intros Hnd; [constructor|].
  apply NoDup_cons in Hnd as [Hp Hnd]. rewrite filter_cons.
  destruct (decide _); [|by apply IH]. simpl. apply NoDup_cons. split; [|by apply IH].
  intros Hin. apply Hp. apply list_elem_of_fmap in Hin as (q & Hq & Hin).
  apply list_elem_of_fmap. exists q. split; [done|].
  by apply list_elem_of_filter in Hin as [_ ?].
Qed.

(** The inputs of the result: one entry per kept parameter, in order, which
    is the entry of the first loop, updated by its type hint, and then
    changed by the docstring in its description and file filter only. *)
Lemma extract_docs_pipeline cls method_name boilerplate_args method docs :
  c_methods cls !! method_name = Some method ->
  NoDup (map p_name (m_params method)) ->
  _extract_docs cls method_name boilerplate_args = Ok docs ->
  exists type_hints,
    m_type_hints method = Ok type_hints
    /\ Forall2
         (fun p item =>
            item.1 = p_name p
            /\ exists e1, hinted_entry type_hints (p_name p) (initial_entry p) = Ok e1
                          /\ same_schema_fields e1 item.2)
         (filter (fun p => kept (default [] boilerplate_args) p = true) (m_params method))
         (d_inputs docs).
Proof.
  intros Hm Hnd H. unfold _extract_docs, getattr_method in H. rewrite Hm in H. simpl in H.
  destruct (m_type_hints method) as [type_hints|]; simpl in H; [|done].
  exists type_hints. split; [done|].
  rewrite collect_inputs_spec in H by done.
  set (ps := filter _ (m_params method)) in *.
  rewrite apply_type_hints_spec in H
    by (rewrite keys_entries; by apply NoDup_kept_names).
  destruct (map_result _ (map entry_of ps)) as [hinted|] eqn:Eh; simpl in H; [|done].
  assert (Hs : same_schema hinted (d_inputs docs)).
  { destruct (m_doc method) as [doc|].
    - destruct (parse_lines _ _ _) as [st|] eqn:Ep; simpl in H; [|done].
      injection H as <-. simpl. apply parse_lines_schema in Ep. exact Ep.
    - injection H as <-. apply same_schema_refl. }
  apply map_result_Forall2 in Eh. clear H.
  revert Hs. generalize (d_inputs docs). revert hinted Eh. generalize ps. clear.
  induction ps as [|p ps IH]; intros hinted Eh final Hs.
  - inversion Eh; subst. inversion Hs; subst. constructor.
  - inversion Eh as [|? y ? hinted' Hy Eh']; subst.
    inversion Hs as [|? z ? final' [Hk Hf] Hs']; subst.
    constructor; [|by eapply IH].
    unfold hinted_item in Hy. simpl in Hy.
    destruct (hinted_entry type_hints (p_name p) (initial_entry p)) as [e1|] eqn:E1;
      simpl in Hy; [|done].
    injection Hy as <-. simpl in *. split; [done|]. by exists e1.
Qed.

Lemma Forall2_keys {A} (R : A -> string * gmap string pyobj -> Prop) (f : A -> string) l l' :
  Forall2 (fun a item => item.1 = f a /\ R a item) l l' -> OrderedDict.keys l' = map f l.
Proof.
  induction 1 as [|a item l l' [Hk _] _ IH]; simpl; [done|]. by rewrite Hk, IH.
Qed.

Lemma Forall2_entry {A} (R : A -> string * gmap string pyobj -> Prop) (f : A -> string) l l' a :
  Forall2 (fun a item => item.1 = f a /\ R a item) l l' ->
  NoDup (map f l) -> a ∈ l ->
  exists e, OrderedDict.lookup (f a) l' = Some e /\ R a (f a, e).
Proof.
  intros HF Hnd Ha. pose proof (Forall2_keys R f l l' HF) as Hkeys.
  apply list_elem_of_lookup in Ha as [i Hi].
  destruct (Forall2_lookup_l _ _ _ _ _ HF Hi) as ([k e] & Hi' & Hk & HR).
  simpl in Hk. subst k. exists e. split; [|done].
  apply lookup_assoc; [by rewrite Hkeys|]. apply list_elem_of_lookup. eauto.
Qed.

(** What a hint leaves alone. *)
Lemma apply_type_hint_other type_hint d d' field :
  apply_type_hint type_hint d = Ok d' ->
  field <> "generic_type" -> field <> "type" -> field <> "enum_items" ->
  d' !! field = d !! field.
Proof.
  unfold apply_type_hint. intros H H1 H2 H3.
  destruct (match type_hint with PGenericAlias _ _ => _ | _ => _ end)
    as [[d0 h0]|] eqn:Hu; simpl in H; [|done].
  assert (Hd0 : d0 !! field = d !! field).
  { destruct type_hint; try (by injection Hu as <- _).
    destruct (index _ 0); simpl in Hu; [|done]. injection Hu as <- _.
    by rewrite lookup_insert_ne by congruence. }
  rewrite <- Hd0.
  assert (Hname : (name <- getattr_name h0 ;;
                   if (name =? "Literal")%string
                   then Ok (<["enum_items" := PList (get_args h0)]>
                              (<["type" := PStr "Literal"]> d0))
                   else Ok (<["type" := PStr name]> d0))%py = Ok d' ->
                  d' !! field = d0 !! field).
  { intros Hn. destruct (getattr_name h0) as [n|]; simpl in Hn; [|done].
    destruct (n =? "Literal")%string; injection Hn as <-;
      by rewrite ?lookup_insert_ne by congruence. }
  destruct h0; try (by apply Hname).
  destruct (map_result getattr_name _); simpl in H; [|done].
  injection H as <-. by rewrite lookup_insert_ne by congruence.
Qed.

Lemma hinted_entry_other type_hints name d d' field :
  hinted_entry type_hints name d = Ok d' ->
  field <> "generic_type" -> field <> "type" -> field <> "enum_items" ->
  d' !! field = d !! field.
Proof.
  unfold hinted_entry. destruct (is_None _); [by intros [= <-]|].
  apply apply_type_hint_other.
Qed.

Lemma initial_entry_name p : initial_entry p !! "name" = Some (PStr (p_name p)).
Proof.
  unfold initial_entry. destruct (p_default p) as [d|]; [destruct (is_scalar d)|];
    by simplify_map_eq.
Qed.

Lemma initial_entry_default p : initial_entry p !! "default" = recorded_default p.
Proof.
  unfold initial_entry, recorded_default.
  destruct (p_default p) as [d|]; [destruct (is_scalar d)|]; by simplify_map_eq.
Qed.

Lemma initial_entry_fresh p field :
  field <> "name" -> field <> "default" -> initial_entry p !! field = None.
Proof.
  intros H1 H2. unfold initial_entry.
  destruct (p_default p) as [d|]; [destruct (is_scalar d)|];
    rewrite ?lookup_insert_ne by congruence; by apply lookup_singleton_ne.
Qed.

Lemma kept_spec boilerplate_args p :
  kept boilerplate_args p = true <-> p_name p <> "self" /\ p_name p ∉ boilerplate_args.
Proof.
  unfold kept. rewrite andb_true_iff, !negb_true_iff, bool_decide_eq_false.
  destruct (String.eqb_spec (p_name p) "self"); split; intros [? ?]; split; congruence.
Qed.

Lemma recorded_default_spec p d :
  recorded_default p = Some d <-> p_default p = Some d /\ is_scalar d = true.
Proof.
  unfold recorded_default. destruct (p_default p) as [d'|].
  - destruct (is_scalar d') eqn:E; split.
    + by intros [= <-].
    + by intros [[= <-] _].
    + done.
    + intros [[= <-] ?]. congruence.
  - split; [done|]. by intros [? _].
Qed.

(** The entry of a kept parameter in the result. *)
Lemma extract_docs_entry cls method_name boilerplate_args method docs p :
  c_methods cls !! method_name = Some method ->
  NoDup (map p_name (m_params method)) ->
  _extract_docs cls method_name boilerplate_args = Ok docs ->
  p ∈ m_params method ->
  kept (default [] boilerplate_args) p = true ->
  exists type_hints e1 e,
    m_type_hints method = Ok type_hints
    /\ hinted_entry type_hints (p_name p) (initial_entry p) = Ok e1
    /\ OrderedDict.lookup (p_name p) (d_inputs docs) = Some e
    /\ same_schema_fields e1 e.
Proof.
  intros Hm Hnd H Hp Hk.
  destruct (extract_docs_pipeline _ _ _ _ _ Hm Hnd H) as (type_hints & Hh & HF).
  eapply Forall2_entry in HF as (e & He & e1 & He1 & Hs).
  - exists type_hints, e1, e. eauto.
  - by apply NoDup_kept_names.
  - apply list_elem_of_filter. by split.
Qed.

(** C6. The inputs of the schema are the parameters of the method in their
    declaration order, without [self] and without the excluded names; the
    entry of a parameter has a default if and only if the parameter's
    default is a string, a number or a boolean, and then has that default. *)
Theorem schema_parameters cls method_name boilerplate_args method docs :
  c_methods cls !! method_name = Some method ->
  NoDup (map p_name (m_params method)) ->
  _extract_docs cls method_name boilerplate_args = Ok docs ->
  OrderedDict.keys (d_inputs docs) =
    map p_name
      (filter (fun p => p_name p <> "self" /\ p_name p ∉ default [] boilerplate_args)
         (m_params method))
  /\ forall p,
       p ∈ m_params method ->
       p_name p <> "self" -> p_name p ∉ default [] boilerplate_args ->
       exists e,
         OrderedDict.lookup (p_name p) (d_inputs docs) = Some e
         /\ e !! "name" = Some (PStr (p_name p))
         /\ forall d, e !! "default" = Some d <-> p_default p = Some d /\ is_scalar d = true.
Proof.
  intros Hm Hnd H. split.
  - destruct (extract_docs_pipeline _ _ _ _ _ Hm Hnd H) as (type_hints & _ & HF).
    rewrite (Forall2_keys _ _ _ _ HF). f_equal.
    apply list_filter_iff. intros p. apply kept_spec.
  - intros p Hp Hself Hexcl.
    destruct (extract_docs_entry _ _ _ _ _ p Hm Hnd H Hp) as (th & e1 & e & _ & He1 & He & Hs).
    { by apply kept_spec. }
    exists e. split; [done|].
    assert (Hfield : forall field,
      field = "name" \/ field = "default" -> e !! field = initial_entry p !! field).
    { intros field Hf. rewrite (Hs field) by (destruct Hf; congruence).
      apply (hinted_entry_other _ _ _ _ _ He1); destruct Hf; congruence. }
    split.
    + rewrite Hfield by auto. apply initial_entry_name.
    + intros d. rewrite Hfield by auto. rewrite initial_entry_default.
      apply recorded_default_spec.
Qed.

Example ab_extracted : _extract_docs ab_class "__init__" None = Ok ab_docs.
Proof. vm_compute. reflexivity. Qed.

(** For [(a: str, b: int = 5)] the order is [a; b], [b] has the default 5
    and [a] has none. *)
Lemma schema_parameters_witness :
  _extract_docs ab_class "__init__" None = Ok ab_docs
  /\ OrderedDict.keys (d_inputs ab_docs) = ["a"; "b"]
  /\ (exists e, OrderedDict.lookup "b" (d_inputs ab_docs) = Some e
                /\ e !! "default" = Some (PInt 5))
  /\ (exists e, OrderedDict.lookup "a" (d_inputs ab_docs) = Some e
                /\ e !! "default" = None).
Proof.
  destruct (schema_parameters ab_class "__init__" None ab_init ab_docs)
    as [Hkeys Hentries].
  - reflexivity.
  - apply (bool_decide_unpack _). vm_compute. exact I.
  - vm_compute. reflexivity.
  - split; [vm_compute; reflexivity|].
    split; [exact Hkeys|]. split; eexists; split; reflexivity.
Defined.

(** *** Type hints *)

Lemma apply_type_hint_union members d :
  apply_type_hint (PUnion members) d =
    (t <- member_names members ;; Ok (<[ "type" := t ]> d))%py.
Proof.
  unfold apply_type_hint, member_names. simpl.
  by destruct (map_result getattr_name members).
Qed.

Lemma apply_type_hint_literal items d :
  apply_type_hint (PLiteral items) d =
    Ok (<[ "enum_items" := PList items ]> (<[ "type" := PStr "Literal" ]> d)).
Proof. reflexivity. Qed.

(** A hint that is neither a generic alias nor a union gives its name. *)
Lemma apply_type_hint_named hint name d d' :
  getattr_name hint = Ok name ->
  (forall c args, hint <> PGenericAlias c args) ->
  (forall members, hint <> PUnion members) ->
  apply_type_hint hint d = Ok d' ->
  d' !! "type" = Some (PStr name) /\ d' !! "generic_type" = d !! "generic_type".
Proof.
  intros Hn Hg Hu H. unfold apply_type_hint in H.
  destruct hint; try discriminate; try (by destruct (Hg _ _ eq_refl));
    try (by destruct (Hu _ eq_refl)); simpl in *; injection Hn as <-.
  - destruct (String.eqb_spec name0 "Literal") as [->|]; injection H as <-;
      split; by simplify_map_eq.
  - injection H as <-. split; by simplify_map_eq.
  - destruct (String.eqb_spec name0 "Literal") as [->|]; injection H as <-;
      split; by simplify_map_eq.
Qed.

(** The ["type"] field of any hint that is not a generic alias. *)
Lemma apply_type_hint_plain hint d d' :
  (forall c args, hint <> PGenericAlias c args) ->
  apply_type_hint hint d = Ok d' ->
  exists t, plain_type hint = Ok t /\ d' !! "type" = Some t
            /\ d' !! "generic_type" = d !! "generic_type".
Proof.
  intros Hg H. destruct hint; try (by destruct (Hg _ _ eq_refl));
    try (unfold apply_type_hint in H; simpl in H; discriminate).
  - exists (PStr name). split; [done|].
    apply (apply_type_hint_named (PClass name) name d d'); done.
  - rewrite apply_type_hint_union in H. unfold plain_type.
    destruct (member_names args) as [t|]; simpl in H; [|done].
    injection H as <-. exists t. split; [done|]. split; by simplify_map_eq.
  - exists (PStr "Literal"). split; [done|].
    apply (apply_type_hint_named (PLiteral items) "Literal" d d'); done.
  - exists (PStr name). split; [done|].
    apply (apply_type_hint_named (PTypingAlias name args) name d d'); done.
Qed.

(** A generic alias: the container's name is recorded and the ["type"]
    field is that of its first argument. *)
Lemma apply_type_hint_generic c args d d' :
  apply_type_hint (PGenericAlias c args) d = Ok d' ->
  exists x t, args !! 0%nat = Some x /\ plain_type x = Ok t
              /\ d' !! "generic_type" = Some (PStr c) /\ d' !! "type" = Some t.
Proof.
  intros H. unfold apply_type_hint in H. simpl in H. unfold index in H.
  destruct (args !! 0%nat) as [x|] eqn:Ex; simpl in H; [|done].
  exists x. destruct x; simpl in H; try discriminate;
    try (destruct (map_result getattr_name _) as [names|] eqn:En; simpl in H; [|done]);
    try (destruct (String.eqb _ "Literal") eqn:El; [apply String.eqb_eq in El; subst|]);
    injection H as <-; eexists; (split; [reflexivity|]);
    unfold plain_type, member_names; simpl; rewrite ?En; simpl;
    (split; [reflexivity|]); split; by simplify_map_eq.
Qed.

(** C7, amended. For a kept parameter, the entry of the schema has: no
    type fields when the parameter has no hint; for a [typing.Union], the
    list of the names of its members, in order, as its type; for a literal
    hint, the type ["Literal"] and the list of the literal values as
    [enum_items]; for a [types.GenericAlias] such as [list[str]], the name
    of the container as [generic_type] and, as its type, the type of its
    first argument; for a plain class, its name; and for an alias of the
    [typing] module such as [typing.List[str]], its name too, with no
    container recorded. *)
Theorem schema_type_hints cls method_name boilerplate_args method type_hints docs p :
  c_methods cls !! method_name = Some method ->
  NoDup (map p_name (m_params method)) ->
  m_type_hints method = Ok type_hints ->
  _extract_docs cls method_name boilerplate_args = Ok docs ->
  p ∈ m_params method ->
  p_name p <> "self" -> p_name p ∉ default [] boilerplate_args ->
  exists e,
    OrderedDict.lookup (p_name p) (d_inputs docs) = Some e
    /\ (type_hints !! p_name p = None ->
          e !! "type" = None /\ e !! "generic_type" = None /\ e !! "enum_items" = None)
    /\ (forall members,
          type_hints !! p_name p = Some (PUnion members) ->
          exists names, map_result getattr_name members = Ok names
                        /\ e !! "type" = Some (PList (map PStr names)))
    /\ (forall items,
          type_hints !! p_name p = Some (PLiteral items) ->
          e !! "type" = Some (PStr "Literal") /\ e !! "enum_items" = Some (PList items))
    /\ (forall c args,
          type_hints !! p_name p = Some (PGenericAlias c args) ->
          exists x t, args !! 0%nat = Some x /\ plain_type x = Ok t
                      /\ e !! "generic_type" = Some (PStr c) /\ e !! "type" = Some t)
    /\ (forall name,
          type_hints !! p_name p = Some (PClass name) ->
          e !! "type" = Some (PStr name) /\ e !! "generic_type" = None)
    /\ (forall name args,
          type_hints !! p_name p = Some (PTypingAlias name args) ->
          e !! "type" = Some (PStr name) /\ e !! "generic_type" = None).
Proof.
  intros Hm Hnd Hth H Hp Hself Hexcl.
  destruct (extract_docs_entry _ _ _ _ _ p Hm Hnd H Hp) as (th & e1 & e & Hth' & He1 & He & Hs).
  { by apply kept_spec. }
  assert (th = type_hints) as -> by congruence. clear Hth'.
  exists e. split; [done|].
  assert (Ht : e !! "type" = e1 !! "type") by by apply Hs.
  assert (Hg : e !! "generic_type" = e1 !! "generic_type") by by apply Hs.
  assert (Hi : e !! "enum_items" = e1 !! "enum_items") by by apply Hs.
  rewrite Ht, Hg, Hi. clear Ht Hg Hi Hs He.
  unfold hinted_entry in He1.
  split; [|split; [|split; [|split; [|split]]]].
  - intros Hnone. rewrite Hnone in He1. simpl in He1. injection He1 as <-.
    split; [|split]; by apply initial_entry_fresh.
  - intros members Hh. rewrite Hh in He1. simpl in He1.
    rewrite apply_type_hint_union in He1. unfold member_names in He1.
    destruct (map_result getattr_name members) as [names|]; simpl in He1; [|done].
    injection He1 as <-. exists names. split; [done|]. apply lookup_insert_eq.
  - intros items Hh. rewrite Hh in He1. simpl in He1. injection He1 as <-.
    split; by simplify_map_eq.
  - intros c args Hh. rewrite Hh in He1. simpl in He1.
    by apply apply_type_hint_generic in He1.
  - intros name Hh. rewrite Hh in He1. simpl in He1.
    apply (apply_type_hint_named (PClass name) name) in He1 as [-> ->]; try done.
    split; [done|]. by apply initial_entry_fresh.
  - intros name args Hh. rewrite Hh in He1. simpl in He1.
    apply (apply_type_hint_named (PTypingAlias name args) name) in He1 as [-> ->]; try done.
    split; [done|]. by apply initial_entry_fresh.
Qed.

Example hinted_extracted : _extract_docs hinted_class "__init__" (Some ["src"; "file"; "logger"])
                           = Ok hinted_docs.
Proof. vm_compute. reflexivity. Qed.

Lemma schema_type_hints_witness :
  exists e,
    OrderedDict.lookup "key" (d_inputs hinted_docs) = Some e
    /\ e !! "type" = Some (PList [PStr "int"; PStr "str"]).
Proof.
  destruct (schema_type_hints hinted_class "__init__" (Some ["src"; "file"; "logger"])
              hinted_init hinted_hints hinted_docs (MkParameter "key" None))
    as (e & He & _ & Hunion & _).
  - reflexivity.
  - apply (bool_decide_unpack _). vm_compute. exact I.
  - reflexivity.
  - vm_compute. reflexivity.
  - repeat first [apply list_elem_of_here | apply list_elem_of_further].
  - discriminate.
  - apply (bool_decide_unpack _). vm_compute. exact I.
  - destruct (Hunion [PClass "int"; PClass "str"]) as (names & Hn & Ht); [reflexivity|].
    injection Hn as <-. exists e. split; [exact He|exact Ht].
Defined.

(** C7 as stated fails on two kinds of hint.  A union written [int | str]
    is not a [typing.Union]: no list of member names is recorded, the
    lookup of [__name__] on it raises [AttributeError].  A parameterized
    container written [typing.List[str]] is not a [types.GenericAlias]: its
    type is recorded as ["List"], the element type is not unwrapped and
    no container is recorded. *)
Lemma schema_type_hints_counterexample :
  _extract_docs union_type_class "__init__" None
    = Raise (Exn AttributeError "'types.UnionType' object has no attribute '__name__'")
  /\ exists docs e,
       _extract_docs typing_list_class "__init__" None = Ok docs
       /\ OrderedDict.lookup "names" (d_inputs docs) = Some e
       /\ e !! "type" = Some (PStr "List")
       /\ e !! "generic_type" = None.
Proof.
  split; [vm_compute; reflexivity|].
  eexists _, _. split; [vm_compute; reflexivity|]. split; [reflexivity|].
  split; reflexivity.
Qed.

(** *** The docstring parser *)

Lemma prefix_cons (a : ascii) (p s : string) :
  String.prefix (String a p) s = true -> exists s', s = String a s' /\ String.prefix p s' = true.
Proof.
  destruct s as [|b s']; simpl; [discriminate|].
  destruct (ascii_dec a b) as [->|]; [|discriminate]. eauto.
Qed.

Lemma split_nonempty (sep : ascii) (s : string) : split sep s <> [].
Proof.
  destruct s as [|c s]; simpl; [done|].
  destruct (Ascii.eqb c sep); [done|]. by destruct (split sep s).
Qed.

(** A line that starts with [:param] does not start with [:return:], and
    has a second field. *)
Lemma param_line_shape (line : string) :
  startswith ":param" line = true ->
  startswith ":return:" line = false
  /\ exists field rest, split COLON line = EmptyString :: field :: rest.
Proof.
  unfold startswith. intros H.
  apply prefix_cons in H as (l1 & -> & H). apply prefix_cons in H as (l2 & -> & _).
  split; [reflexivity|]. simpl.
  destruct (split COLON l2) as [|f fs]; eauto.
Qed.

Lemma return_line_shape (line : string) :
  startswith ":return:" line = true ->
  exists name rest, split COLON line = EmptyString :: "return" :: name :: rest.
Proof.
  unfold startswith. intros H.
  do 8 (apply prefix_cons in H as (? & -> & H)). simpl.
  destruct (split COLON _) as [|f fs] eqn:E; [by apply split_nonempty in E|eauto].
Qed.

(** C8, amended. On a line other than the first that starts with [:param],
    the parameter named is the second field of the line split on [:],
    trimmed and with every occurrence of [param ] removed.  When the name is
    not a known parameter the line changes nothing; when it is and the
    line has a third field, that field, trimmed, becomes the description of
    the parameter. *)
Theorem param_line i line st :
  i <> 0%nat ->
  startswith ":param" (strip line) = true ->
  exists field,
    split COLON (strip line) !! 1%nat = Some field
    /\ (OrderedDict.mem (replace "param " EmptyString (strip field)) (ds_inputs st) = false ->
          parse_line i line st = Ok st)
    /\ (forall description,
          OrderedDict.mem (replace "param " EmptyString (strip field)) (ds_inputs st) = true ->
          split COLON (strip line) !! 2%nat = Some description ->
          parse_line i line st =
            Ok (DocState (ds_name st) (ds_output st)
                  (OrderedDict.alter (insert "description" (PStr (strip description)))
                     (replace "param " EmptyString (strip field)) (ds_inputs st))
                  (ds_description st))).
Proof.
  intros Hi Hp. destruct (param_line_shape _ Hp) as (Hr & field & rest & Hs).
  exists field. split; [by rewrite Hs|].
  unfold parse_line. apply Nat.eqb_neq in Hi. rewrite Hi, Hr, Hp, Hs. simpl. split.
  - by intros ->.
  - intros description -> Hd. unfold index.
    change ((EmptyString :: field :: rest) !! 2%nat) with (rest !! 0%nat). by rewrite Hd.
Qed.

Lemma param_line_witness :
  parse_line 2 "    :param a: The first model"
    (DocState (Some "Merge models") None [("a", {[ "name" := PStr "a" ]})] EmptyString)
  = Ok (DocState (Some "Merge models") None
          [("a", {[ "name" := PStr "a"; "description" := PStr "The first model" ]})] EmptyString).
Proof.
  destruct (param_line 2 "    :param a: The first model"
              (DocState (Some "Merge models") None [("a", {[ "name" := PStr "a" ]})] EmptyString))
    as (field & Hfield & _ & Hknown).
  - discriminate.
  - reflexivity.
  - injection Hfield as <-. rewrite (Hknown " The first model"); reflexivity.
Defined.

(** C8 as stated fails in three ways.  A first line that starts with
    [:param] is the title, and nothing is attached to the known parameter
    [a].  The text [param ] is removed wherever it occurs in the field, so
    that a line whose field is [param xparam y] describes the parameter
    [xy].  A line without a third field that names a known parameter is an
    error. *)
Lemma param_line_counterexample :
  (exists docs e,
     _extract_docs (documented ":param a: The first model") "__init__" None = Ok docs
     /\ d_name docs = Some ":param a: The first model"
     /\ OrderedDict.lookup "a" (d_inputs docs) = Some e
     /\ e !! "description" = None)
  /\ (exists docs e,
        _extract_docs (documented (docstring ["Merge"; EmptyString; ":param xparam y: odd"]))
          "__init__" None = Ok docs
        /\ OrderedDict.lookup "xy" (d_inputs docs) = Some e
        /\ e !! "description" = Some (PStr "odd"))
  /\ _extract_docs (documented (docstring ["Merge"; EmptyString; ":param a"])) "__init__" None
     = Raise index_error.
Proof.
  split; [|split].
  - eexists _, _. split; [vm_compute; reflexivity|]. split; [reflexivity|].
    split; reflexivity.
  - eexists _, _. split; [vm_compute; reflexivity|]. split; reflexivity.
  - vm_compute. reflexivity.
Qed.

(** *** Errors of the docstring loop *)

(** The only error of the loop body is an index out of range. *)
Lemma parse_line_error i line st e : parse_line i line st = Raise e -> e = index_error.
Proof.
  unfold parse_line, index. intros H.
  repeat match type of H with
  | (if ?b then _ else _) = _ => destruct b
  | rbind (match ?o with _ => _ end) _ = _ => destruct o; simpl in H
  | Ok _ = Raise _ => discriminate H
  | Raise _ = Raise _ => injection H as <-
  end; reflexivity.
Qed.

(** A [:return:] line with fewer than four fields, on any line but the
    first, is an error. *)
Lemma return_line_error i line st :
  i <> 0%nat ->
  startswith ":return:" (strip line) = true ->
  length (split COLON (strip line)) < 4 ->
  parse_line i line st = Raise index_error.
Proof.
  intros Hi Hr Hlen. unfold parse_line. apply Nat.eqb_neq in Hi. rewrite Hi, Hr.
  destruct (return_line_shape _ Hr) as (name & rest & Hs). rewrite Hs in *.
  destruct rest; [reflexivity|]. simpl in Hlen. lia.
Qed.

Lemma parse_lines_return_error lines i st j line :
  lines !! j = Some line ->
  (i + j)%nat <> 0%nat ->
  startswith ":return:" (strip line) = true ->
  length (split COLON (strip line)) < 4 ->
  parse_lines i lines st = Raise index_error.
Proof.
  revert i st j. induction lines as [|l lines IH]; intros i st j Hj Hij Hr Hlen.
  - done.
  - simpl. destruct j as [|j]; simpl in Hj.
    + injection Hj as ->. rewrite return_line_error; [done| lia | done | done].
    + destruct (parse_line i l st) as [st'|e] eqn:E; simpl.
      * apply (IH (S i) st' j); [done| lia | done | done].
      * by rewrite (parse_line_error _ _ _ _ E).
Qed.

(** *** [extract_docs] *)

(** What [extract_docs] does, by the outcome of loading and introspection. *)
Lemma extract_docs_run env submodule_name cls_name method_name boilerplate_args w :
  run (extract_docs env submodule_name cls_name method_name boilerplate_args) w =
    match exec_module env submodule_name with
    | Raise e =>
        if exn_kind_eqb (exn_kind_of e) ModuleNotFoundError
        then (printed ("Error : IFCPatch " ++ module_repr env submodule_name
                         ++ " could not load because : " ++ exn_msg e) w, Ok None)
        else (w, Raise e)
    | Ok submodule =>
        match introspect submodule_name cls_name method_name boilerplate_args submodule with
        | Ok docs => (w, Ok (Some docs))
        | Raise e =>
            if exn_kind_eqb (exn_kind_of e) AttributeError
            then (printed (exn_msg e) w, Ok None)
            else if exn_kind_eqb (exn_kind_of e) ModuleNotFoundError
            then (printed ("Error : IFCPatch " ++ module_repr env submodule_name
                             ++ " could not load because : " ++ exn_msg e) w, Ok None)
            else (w, Raise e)
        end
    end.
Proof.
  unfold extract_docs, introspect. cbn.
  destruct (exec_module env submodule_name) as [submodule|e]; cbn.
  - destruct (getattr_module _ _ _) as [cls|[kind msg]]; cbn.
    + destruct (_extract_docs _ _ _) as [docs|[kind msg]]; cbn; [done|].
      by destruct kind.
    + by destruct kind.
  - destruct e as [kind msg]. by destruct kind.
Qed.

(** C2, amended. [extract_docs] gives the metadata when loading and
    introspection succeed; it prints a diagnostic and gives nothing, without
    raising, when loading the module raises [ModuleNotFoundError] and when
    finding the class or introspecting it raises [AttributeError]. *)
Theorem extract_docs_outcomes env submodule_name cls_name method_name boilerplate_args w :
  (forall submodule docs,
     exec_module env submodule_name = Ok submodule ->
     introspect submodule_name cls_name method_name boilerplate_args submodule = Ok docs ->
     run (extract_docs env submodule_name cls_name method_name boilerplate_args) w
       = (w, Ok (Some docs)))
  /\ (forall e,
        exec_module env submodule_name = Raise e ->
        exn_kind_of e = ModuleNotFoundError ->
        run (extract_docs env submodule_name cls_name method_name boilerplate_args) w
          = (printed ("Error : IFCPatch " ++ module_repr env submodule_name
                        ++ " could not load because : " ++ exn_msg e) w, Ok None))
  /\ (forall submodule e,
        exec_module env submodule_name = Ok submodule ->
        introspect submodule_name cls_name method_name boilerplate_args submodule = Raise e ->
        exn_kind_of e = AttributeError ->
        run (extract_docs env submodule_name cls_name method_name boilerplate_args) w
          = (printed (exn_msg e) w, Ok None)).
Proof.
  split; [|split].
  - intros submodule docs Hm Hd. by rewrite extract_docs_run, Hm, Hd.
  - intros e Hm He. by rewrite extract_docs_run, Hm, He.
  - intros submodule e Hm Hd He. by rewrite extract_docs_run, Hm, Hd, He.
Qed.

Lemma extract_docs_outcomes_witness :
  (exists docs,
     run (extract_docs schema_env "ReturnsModel" "Patcher" "__init__" None) world0
       = (world0, Ok (Some docs))
     /\ d_output docs
        = Some {[ "name" := PStr "model"; "description" := PStr "The merged model" ]})
  /\ run (extract_docs schema_env "NeedsNumpy" "Patcher" "__init__" None) world0
     = (printed
          ("Error : IFCPatch <module 'NeedsNumpy' from "
             ++ "'/site-packages/ifcpatch/recipes/NeedsNumpy.py'>"
             ++ " could not load because : No module named 'numpy'") world0,
        Ok None)
  /\ run (extract_docs schema_env "ReturnsModel" "Merger" "__init__" None) world0
     = (printed "module 'ReturnsModel' has no attribute 'Merger'" world0, Ok None).
Proof.
  destruct (extract_docs_outcomes schema_env "ReturnsModel" "Patcher" "__init__" None world0)
    as (Hok & _ & _).
  destruct (extract_docs_outcomes schema_env "NeedsNumpy" "Patcher" "__init__" None world0)
    as (_ & Hload & _).
  destruct (extract_docs_outcomes schema_env "ReturnsModel" "Merger" "__init__" None world0)
    as (_ & _ & Hattr).
  split; [|split].
  - eexists. split; [eapply Hok; [reflexivity|vm_compute; reflexivity]|reflexivity].
  - apply (Hload (Exn ModuleNotFoundError "No module named 'numpy'")); reflexivity.
  - eapply (Hattr _ (Exn AttributeError "module 'ReturnsModel' has no attribute 'Merger'"));
      reflexivity.
Defined.

(** C2 as stated fails: the docstring of the recipe [ReturnsNothing] has
    the line [:return: None], and the [IndexError] of the parser is not
    caught by [extract_docs]. *)
Lemma extract_docs_raises_counterexample :
  run (extract_docs schema_env "ReturnsNothing" "Patcher" "__init__" None) world0
  = (world0, Raise index_error).
Proof. vm_compute. reflexivity. Qed.

(** C10. When the module loads and the class, the method and its type
    hints are found, a docstring with a line, other than its first, that
    starts with [:return:] and splits on [:] into fewer than four fields
    makes [extract_docs] raise [IndexError] to its caller: nothing is
    printed and nothing is returned. *)
Theorem extract_docs_return_line_escapes
    env submodule_name cls_name method_name boilerplate_args
    submodule cls method type_hints inputs doc j line w :
  exec_module env submodule_name = Ok submodule ->
  submodule !! cls_name = Some cls ->
  c_methods cls !! method_name = Some method ->
  m_type_hints method = Ok type_hints ->
  apply_type_hints type_hints
    (OrderedDict.keys (collect_inputs (m_params method) (default [] boilerplate_args)))
    (collect_inputs (m_params method) (default [] boilerplate_args)) = Ok inputs ->
  m_doc method = Some doc ->
  split NL doc !! j = Some line ->
  j <> 0%nat ->
  startswith ":return:" (strip line) = true ->
  length (split COLON (strip line)) < 4 ->
  run (extract_docs env submodule_name cls_name method_name boilerplate_args) w
    = (w, Raise index_error)
  /\ exn_kind_eqb (exn_kind_of index_error) AttributeError = false
  /\ exn_kind_eqb (exn_kind_of index_error) ModuleNotFoundError = false.
Proof.
  intros Hm Hc Hmeth Hth Hin Hdoc Hj Hj0 Hr Hlen. split; [|done].
  rewrite extract_docs_run, Hm. unfold introspect, getattr_module. rewrite Hc. simpl.
  unfold _extract_docs, getattr_method. rewrite Hmeth. simpl. rewrite Hth. simpl.
  rewrite Hin. simpl. rewrite Hdoc.
  rewrite (parse_lines_return_error _ 0 _ j line); done.
Qed.

(** The docstring of [write] in this module ends with [:return: None]. *)
Lemma extract_docs_return_line_escapes_witness :
  run (extract_docs
         (Environment "/site-packages/ifcpatch"
            {[ "Writer" :=
                 Ok {[ "Patcher" :=
                         documented (docstring ["Write the output"; EmptyString; ":param a: The results";
                                                ":return: None"; ":rtype: None"]) ]} ]})
         "Writer" "Patcher" "__init__" None) world0
  = (world0, Raise index_error).
Proof.
  eapply (extract_docs_return_line_escapes _ "Writer" "Patcher" "__init__" None
            _ _ _ _ _ _ 3 ":return: None" world0).
  - reflexivity.
  - reflexivity.
  - reflexivity.
  - reflexivity.
  - vm_compute. reflexivity.
  - reflexivity.
  - vm_compute. reflexivity.
  - discriminate.
  - reflexivity.
  - vm_compute. lia.
Defined.

End SchemaProps.

(** * Further properties of [execute] *)

Module ExecuteExtra.
Import ExecuteProps.

Lemma run_log args w :
  run (match log args with
       | Some filename => emit (EvBasicConfig filename)
       | None => eret tt
       end) w = (add_events (log_events args) w, Ok tt).
Proof. unfold log_events. destruct (log args); cbn; [done|]. by rewrite add_events_nil. Qed.

Lemma execute_import_failure env args e w :
  import_module env (recipe args) = Raise e ->
  run (execute env args) w = (add_events (log_events args) w, Raise e).
Proof.
  intros H. unfold execute. cbn. rewrite run_log, H. reflexivity.
Qed.

Lemma execute_missing_patcher env args m w :
  recipe_files env !! recipe args = Some (Ok m) ->
  m !! "Patcher" = None ->
  run (execute env args) w =
    (add_events (log_events args) w,
     Raise (Exn AttributeError
              ("module 'ifcpatch.recipes." ++ recipe args ++ "' has no attribute 'Patcher'"))).
Proof.
  intros Hm Hp. unfold execute, get_patch_input_argument_use, import_module, getattr_module.
  cbn. rewrite run_log, Hm. cbn. rewrite Hp. reflexivity.
Qed.

(** Resolution comes before validation: for a recipe that is not there
    [execute] raises [ModuleNotFoundError], and for a recipe module
    without a [Patcher] class it raises [AttributeError]; whether or not the
    request has the input or the document, the logging configuration has
    been done and no constructor has been called. *)
Theorem execute_unresolved env args w :
  (recipe_files env !! recipe args = None ->
   run (execute env args) w =
     (add_events (log_events args) w,
      Raise (Exn ModuleNotFoundError
               ("No module named 'ifcpatch.recipes." ++ recipe args ++ "'"))))
  /\ (forall m,
        recipe_files env !! recipe args = Some (Ok m) ->
        m !! "Patcher" = None ->
        run (execute env args) w =
          (add_events (log_events args) w,
           Raise (Exn AttributeError
                    ("module 'ifcpatch.recipes." ++ recipe args
                       ++ "' has no attribute 'Patcher'")))).
Proof.
  split.
  - intros H. apply execute_import_failure. unfold import_module. by rewrite H.
  - intros m Hm Hp. by apply (execute_missing_patcher env args m).
Qed.

Lemma execute_unresolved_witness :
  run (execute sample_env
         {| recipe := "NoSuchRecipe"; file := None; input := None;
            log := Some (PStr "patch.log"); arguments := None |}) world0
  = (World [EvBasicConfig (PStr "patch.log")] [] ∅,
     Raise (Exn ModuleNotFoundError "No module named 'ifcpatch.recipes.NoSuchRecipe'")).
Proof.
  destruct (execute_unresolved sample_env
              {| recipe := "NoSuchRecipe"; file := None; input := None;
                 log := Some (PStr "patch.log"); arguments := None |} world0) as [Hmissing _].
  apply Hmissing. reflexivity.
Defined.

(** [get_patch_input_argument_use] returns a value exactly for a recipe
    whose module loads and has a [Patcher] class: the class attribute
    [input_argument] when the class has one, and ["IGNORED"] otherwise. *)
Theorem input_argument_use_spec env recipe v :
  get_patch_input_argument_use env recipe = Ok v <->
  exists m cls,
    recipe_files env !! recipe = Some (Ok m)
    /\ m !! "Patcher" = Some cls
    /\ v = match c_attrs cls !! "input_argument" with
           | Some declared => declared
           | None => PStr "IGNORED"
           end.
Proof.
  unfold get_patch_input_argument_use, import_module, getattr_module. split.
  - intros H. destruct (recipe_files env !! recipe) as [[m|e]|]; simpl in H; try done.
    destruct (m !! "Patcher") as [cls|] eqn:Hc; simpl in H; [|done].
    exists m, cls. split; [done|]. split; [done|].
    destruct (c_attrs cls !! "input_argument"); simpl in H; congruence.
  - intros (m & cls & Hm & Hc & ->). rewrite Hm. simpl. rewrite Hc. simpl.
    by destruct (c_attrs cls !! "input_argument").
Qed.

(** An exception raised by the recipe reaches the caller as it is: one
    raised by the constructor, with [patch] never called, and one raised by
    [patch]. *)
Theorem execute_recipe_error env args cls init argv e w :
  resolves env args cls ->
  passes_validation cls args = true ->
  c_methods cls !! "__init__" = Some init ->
  constructor_argv args (m_doc init) = Ok argv ->
  (c_init cls argv = Raise e ->
   run (execute env args) w = (add_events (log_events args ++ [EvInit argv]) w, Raise e))
  /\ (forall patcher,
        c_init cls argv = Ok patcher ->
        c_patch cls patcher = Raise e ->
        run (execute env args) w =
          (add_events (log_events args ++ [EvInit argv; EvPatch]) w, Raise e)).
Proof.
  intros Hr Hv Hi Ha. rewrite (execute_accepts env args cls w Hr Hv).
  unfold getattr_method, run_patcher. rewrite Hi, Ha. split.
  - intros ->. by rewrite add_events_add.
  - intros patcher -> ->. by rewrite add_events_add.
Qed.

Lemma execute_recipe_error_witness :
  run (execute (Environment "/site-packages/ifcpatch"
                  {[ "Broken" := Ok {[ "Patcher" := failing_constructor ]} ]})
         (request "Broken" (Some (PFile "ISO-10303-21;")) None None)) world0
  = (World [EvInit [PNone; PFile "ISO-10303-21;"; PLogger "IFCPatch"; PList []]] [] ∅,
     Raise (Exn (OtherError "RuntimeError") "unsupported schema")).
Proof.
  destruct (execute_recipe_error
              (Environment "/site-packages/ifcpatch"
                 {[ "Broken" := Ok {[ "Patcher" := failing_constructor ]} ]})
              (request "Broken" (Some (PFile "ISO-10303-21;")) None None)
              failing_constructor
              (PyMethod [MkParameter "self" None; MkParameter "src" None;
                         MkParameter "file" None; MkParameter "logger" None] (Ok ∅) None)
              [PNone; PFile "ISO-10303-21;"; PLogger "IFCPatch"; PList []]
              (Exn (OtherError "RuntimeError") "unsupported schema") world0)
    as [Hinit _].
  - eexists; split; reflexivity.
  - reflexivity.
  - reflexivity.
  - reflexivity.
  - rewrite Hinit; reflexivity.
Defined.

(** When [execute] returns a value, it has configured logging if asked to,
    then called the constructor exactly once and [patch] exactly once, in
    this order, and nothing else; the recipe resolved and the request passed
    validation. *)
Theorem execute_success env args w v :
  (run (execute env args) w).2 = Ok v ->
  exists cls argv,
    resolves env args cls
    /\ passes_validation cls args = true
    /\ (run (execute env args) w).1 =
         add_events (log_events args ++ [EvInit argv; EvPatch]) w.
Proof.
  intros H.
  destruct (recipe_files env !! recipe args) as [[m|e]|] eqn:Hm.
  - destruct (m !! "Patcher") as [cls|] eqn:Hc.
    + assert (Hr : resolves env args cls) by (exists m; done).
      exists cls. destruct (passes_validation cls args) eqn:Hv.
      * rewrite (execute_accepts env args cls w Hr Hv) in *.
        destruct (getattr_method cls "__init__") as [init|]; [|done].
        destruct (constructor_argv args (m_doc init)) as [argv|]; [|done].
        exists argv. split; [done|]. split; [done|].
        unfold run_patcher in *.
        destruct (c_init cls argv) as [p|]; [|done].
        destruct (c_patch cls p) as [p'|]; [|done].
        simpl. by rewrite add_events_add.
      * by rewrite (execute_rejects env args cls w Hr Hv) in H.
    + by rewrite (execute_missing_patcher env args m w Hm Hc) in H.
  - rewrite (execute_import_failure env args e w) in H; [done|].
    unfold import_module. by rewrite Hm.
  - rewrite (execute_import_failure env args
               (Exn ModuleNotFoundError
                  ("No module named 'ifcpatch.recipes." ++ recipe args ++ "'")) w) in H; [done|].
    unfold import_module. by rewrite Hm.
Qed.

Lemma execute_success_witness :
  exists cls argv,
    resolves sample_env
      (request "ExtractElements" (Some (PFile "ISO-10303-21;")) None
         (Some (PList [PStr ".IfcWall"]))) cls
    /\ passes_validation cls
         (request "ExtractElements" (Some (PFile "ISO-10303-21;")) None
            (Some (PList [PStr ".IfcWall"]))) = true
    /\ (run (execute sample_env
               (request "ExtractElements" (Some (PFile "ISO-10303-21;")) None
                  (Some (PList [PStr ".IfcWall"])))) world0).1
       = add_events
           (log_events (request "ExtractElements" (Some (PFile "ISO-10303-21;")) None
                          (Some (PList [PStr ".IfcWall"])))
              ++ [EvInit argv; EvPatch]) world0.
Proof.
  apply (execute_success sample_env
           (request "ExtractElements" (Some (PFile "ISO-10303-21;")) None
              (Some (PList [PStr ".IfcWall"]))) world0 (PFile "ISO-10303-21;")).
  vm_compute. reflexivity.
Defined.

(** The [arguments] of a documented constructor must be iterable: when
    they are not (a number, a [None] value), [execute] raises the
    [TypeError] of the unpacking and calls no constructor; an undocumented
    constructor is called with the object as it is. *)
Theorem execute_arguments_object env args cls init v w :
  resolves env args cls ->
  passes_validation cls args = true ->
  c_methods cls !! "__init__" = Some init ->
  arguments args = Some v ->
  (forall e,
     m_doc init <> None -> unpack v = Raise e ->
     run (execute env args) w = (add_events (log_events args) w, Raise e)
     /\ exn_kind_of e = TypeError)
  /\ (m_doc init = None ->
        init_calls (trace (run (execute env args) w).1) =
          (init_calls (trace w)
             ++ [[dict_get (input args); dict_get (file args); PLogger "IFCPatch"; v]])%list).
Proof.
  intros Hr Hv Hi Harg. split.
  - intros e Hdoc He. rewrite (execute_accepts env args cls w Hr Hv).
    unfold getattr_method, constructor_argv. rewrite Hi, Harg. simpl.
    destruct (m_doc init); [|done]. rewrite He. simpl. split; [done|].
    destruct v; simpl in He; try discriminate; by injection He as <-.
  - intros Hdoc. apply (execute_calls env args cls init); try done.
    unfold constructor_argv. by rewrite Hdoc, Harg.
Qed.

Lemma execute_arguments_object_witness :
  run (execute sample_env
         (request "ExtractElements" (Some (PFile "ISO-10303-21;")) None (Some PNone))) world0
  = (world0, Raise (Exn TypeError "Value after * must be an iterable")).
Proof.
  destruct (execute_arguments_object sample_env
              (request "ExtractElements" (Some (PFile "ISO-10303-21;")) None (Some PNone))
              extract_elements extract_elements_init PNone world0) as [Hdoc _].
  - eexists; split; reflexivity.
  - reflexivity.
  - reflexivity.
  - reflexivity.
  - destruct (Hdoc (Exn TypeError "Value after * must be an iterable")) as [Hrun _].
    + discriminate.
    + reflexivity.
    + rewrite Hrun. reflexivity.
Defined.

(** A string given as [arguments] to a documented constructor is spread
    into its characters: the constructor gets one argument per character. *)
Theorem execute_arguments_string env args cls init s w :
  resolves env args cls ->
  passes_validation cls args = true ->
  c_methods cls !! "__init__" = Some init ->
  m_doc init <> None ->
  arguments args = Some (PStr s) ->
  exists argv,
    init_calls (trace (run (execute env args) w).1) = (init_calls (trace w) ++ [argv])%list
    /\ length argv = (3 + String.length s)%nat
    /\ forall i c, String.get i s = Some c -> argv !! (3 + i)%nat = Some (PStr (String c EmptyString)).
Proof.
  intros Hr Hv Hi Hdoc Harg.
  exists ([dict_get (input args); dict_get (file args); PLogger "IFCPatch"]
            ++ map (fun c => PStr (String c EmptyString)) (list_ascii_of_string s))%list.
  split; [|split].
  - apply (execute_calls env args cls init); try done.
    unfold constructor_argv. rewrite Harg. simpl. by destruct (m_doc init).
  - simpl. rewrite length_map. f_equal. f_equal. f_equal.
    clear. induction s; simpl; congruence.
  - intros i c Hget. simpl. rewrite list_lookup_fmap.
    assert (Hl : list_ascii_of_string s !! i = Some c).
    { clear -Hget. revert i Hget. induction s as [|a s IH]; intros [|i] H; simpl in *;
        try done. by apply IH. }
    by rewrite Hl.
Qed.

Lemma execute_arguments_string_witness :
  init_calls (trace (run (execute sample_env
      (request "ExtractElements" (Some (PFile "ISO-10303-21;")) None (Some (PStr "ab"))))
      world0).1)
  = [[PNone; PFile "ISO-10303-21;"; PLogger "IFCPatch"; PStr "a"; PStr "b"]].
Proof.
  destruct (execute_arguments_string sample_env
              (request "ExtractElements" (Some (PFile "ISO-10303-21;")) None (Some (PStr "ab")))
              extract_elements extract_elements_init "ab" world0)
    as (argv & Hcalls & _ & _).
  - eexists; split; reflexivity.
  - reflexivity.
  - reflexivity.
  - discriminate.
  - reflexivity.
  - reflexivity.
Defined.

(** A recipe that requires the raw input path runs without a document: for
    a request with a non-empty input and no document key the constructor is
    called with the input path first and [None] in the place of the
    document. *)
Theorem execute_required_without_document env args cls init l path w :
  resolves env args cls ->
  policy_of cls = PStr "REQUIRED" ->
  input args = Some (PStr path) ->
  path <> EmptyString ->
  file args = None ->
  c_methods cls !! "__init__" = Some init ->
  default (PList []) (arguments args) = PList l ->
  exists argv,
    init_calls (trace (run (execute env args) w).1) = (init_calls (trace w) ++ [argv])%list
    /\ argv !! 0%nat = Some (PStr path)
    /\ argv !! 1%nat = Some PNone.
Proof.
  intros Hr Hp Hin Hne Hfile Hi Hl.
  assert (Hv : passes_validation cls args = true).
  { unfold passes_validation. rewrite (policy_required _ Hp), Hin. simpl.
    apply negb_true_iff. by apply String.eqb_neq. }
  exists (match m_doc init with
          | Some _ => [PStr path; PNone; PLogger "IFCPatch"] ++ l
          | None => [PStr path; PNone; PLogger "IFCPatch"; PList l]
          end)%list.
  split; [|by destruct (m_doc init)].
  apply (execute_calls env args cls init); try done.
  unfold constructor_argv. rewrite Hl, Hfile, Hin. by destruct (m_doc init).
Qed.

Lemma execute_required_without_document_witness :
  exists argv,
    init_calls (trace (run (execute sample_env
                              (request "Ifc2Sql" None (Some (PStr "model.ifc")) None))
                         world0).1) = ([] ++ [argv])%list
    /\ argv !! 0%nat = Some (PStr "model.ifc")
    /\ argv !! 1%nat = Some PNone.
Proof.
  apply (execute_required_without_document sample_env
           (request "Ifc2Sql" None (Some (PStr "model.ifc")) None) requires_input
           (PyMethod [MkParameter "self" None; MkParameter "src" None;
                      MkParameter "file" None; MkParameter "logger" None] (Ok ∅) None)
           [] "model.ifc" world0).
  - eexists; split; reflexivity.
  - reflexivity.
  - reflexivity.
  - discriminate.
  - reflexivity.
  - reflexivity.
  - reflexivity.
Defined.

End ExecuteExtra.

(** * Further properties of [write] *)

Module WriteExtra.
Import WriteProps.

(** Writing a text result twice is the same as writing it once, as long as
    the text is not the name of the target or of an existing file. *)
Theorem write_text_twice (s filepath : string) (w : world) :
  fs w !! s = None ->
  s <> filepath ->
  run (write (PStr s) filepath) (run (write (PStr s) filepath) w).1
    = run (write (PStr s) filepath) w.
Proof.
  intros Hs Hne. apply path_exists_false in Hs as He.
  cbn. rewrite He. cbn.
  assert (He' : path_exists (write_text filepath s (fs w)) s = false).
  { apply path_exists_false. unfold write_text. by rewrite lookup_insert_ne. }
  rewrite He'. cbn. unfold write_text. by rewrite insert_insert_eq.
Qed.

Lemma write_text_twice_witness :
  run (write (PStr "hello world") "out.txt")
    (run (write (PStr "hello world") "out.txt") world0).1
  = run (write (PStr "hello world") "out.txt") world0.
Proof. apply write_text_twice; [reflexivity|discriminate]. Defined.

(** Writing a path result twice is not: the first call moves the file, the
    second no longer finds it and writes the path itself, as text, over the
    moved file. *)
Theorem write_path_twice (s filepath content : string) (w : world) :
  fs w !! s = Some content ->
  s <> filepath ->
  fs (run (write (PStr s) filepath) w).1 !! filepath = Some content
  /\ fs (run (write (PStr s) filepath) (run (write (PStr s) filepath) w).1).1 !! filepath
     = Some s.
Proof.
  intros Hs Hne.
  assert (He : path_exists (fs w) s = true) by (apply path_exists_true; eauto).
  cbn. rewrite He. cbn. split; [by apply shutil_move_dst|].
  assert (He' : path_exists (shutil_move s filepath (fs w)) s = false).
  { apply path_exists_false. by apply (shutil_move_src s filepath content). }
  rewrite He'. cbn. unfold write_text. apply lookup_insert_eq.
Qed.

Lemma write_path_twice_witness :
  fs (run (write (PStr "/tmp/x.ifc") "out.ifc")
        (World [] [] {[ "/tmp/x.ifc" := "ISO-10303-21;" ]})).1 !! "out.ifc"
    = Some "ISO-10303-21;"
  /\ fs (run (write (PStr "/tmp/x.ifc") "out.ifc")
           (run (write (PStr "/tmp/x.ifc") "out.ifc")
              (World [] [] {[ "/tmp/x.ifc" := "ISO-10303-21;" ]})).1).1 !! "out.ifc"
     = Some "/tmp/x.ifc".
Proof.
  apply (write_path_twice "/tmp/x.ifc" "out.ifc" "ISO-10303-21;"); [reflexivity|discriminate].
Defined.

End WriteExtra.

(** * Further properties of schema extraction *)

Module SchemaExtra.
Import OrderedDictFacts SchemaProps.

Lemma exn_kind_eqb_spec (a b : exn_kind) : exn_kind_eqb a b = true <-> a = b.
Proof.
  destruct a, b; simpl; try (split; [discriminate|congruence]); try done.
  rewrite String.eqb_eq. split; congruence.
Qed.

Lemma exn_kind_eqb_false (a b : exn_kind) : exn_kind_eqb a b = false <-> a <> b.
Proof.
  destruct (exn_kind_eqb a b) eqn:E.
  - apply exn_kind_eqb_spec in E. split; [discriminate|congruence].
  - split; [|done]. intros _ Hab. apply exn_kind_eqb_spec in Hab. congruence.
Qed.

(** [extract_docs] raises exactly the exceptions its two handlers let
    through: one raised while the module is executed, unless it is a
    [ModuleNotFoundError] (so an [AttributeError] of the module's own code is
    raised), and one raised while the class is looked up and introspected,
    unless it is an [AttributeError] or a [ModuleNotFoundError].  Nothing is
    printed then. *)
Theorem extract_docs_raises env submodule_name cls_name method_name boilerplate_args w e :
  run (extract_docs env submodule_name cls_name method_name boilerplate_args) w
    = (w, Raise e)
  <-> (exec_module env submodule_name = Raise e
       /\ exn_kind_of e <> ModuleNotFoundError)
      \/ (exists submodule,
            exec_module env submodule_name = Ok submodule
            /\ introspect submodule_name cls_name method_name boilerplate_args submodule
               = Raise e
            /\ exn_kind_of e <> AttributeError
            /\ exn_kind_of e <> ModuleNotFoundError).
Proof.
  rewrite extract_docs_run. split.
  - destruct (exec_module env submodule_name) as [submodule|e0].
    + destruct (introspect _ _ _ _ submodule) as [docs|e0] eqn:Ei; [done|].
      destruct (exn_kind_eqb (exn_kind_of e0) AttributeError) eqn:Ea; [done|].
      destruct (exn_kind_eqb (exn_kind_of e0) ModuleNotFoundError) eqn:Em; [done|].
      intros [= <-]. right. exists submodule.
      apply exn_kind_eqb_false in Ea, Em. done.
    + destruct (exn_kind_eqb (exn_kind_of e0) ModuleNotFoundError) eqn:Em; [done|].
      intros [= <-]. left. apply exn_kind_eqb_false in Em. done.
  - intros [[-> Hm]|(submodule & -> & -> & Ha & Hm)].
    + apply exn_kind_eqb_false in Hm. by rewrite Hm.
    + apply exn_kind_eqb_false in Ha, Hm. by rewrite Ha, Hm.
Qed.

(** *** Title and description *)

Lemma parse_line_name i line st st' :
  i <> 0%nat -> parse_line i line st = Ok st' -> ds_name st' = ds_name st.
Proof.
  intros Hi. apply Nat.eqb_neq in Hi. unfold parse_line. rewrite Hi. intros H.
  repeat match type of H with
  | (if ?b then _ else _) = _ => destruct b
  | rbind ?m _ = _ => destruct m; simpl in H; [|discriminate]
  | Ok _ = Ok _ => injection H as <-; simpl
  end; reflexivity.
Qed.

Lemma parse_lines_name lines i st st' :
  i <> 0%nat -> parse_lines i lines st = Ok st' -> ds_name st' = ds_name st.
Proof.
  revert i st. induction lines as [|line lines IH]; intros i st Hi H; simpl in H.
  - by injection H as <-.
  - destruct (parse_line i line st) as [st1|] eqn:E; simpl in H; [|done].
    rewrite (IH (S i) st1) by done. by apply (parse_line_name i line).
Qed.

(** The result has a name and a description exactly when the method has a
    docstring: the name is then the first line of the docstring, trimmed,
    whatever the other lines are; without a docstring there is no name, no
    description and no output. *)
Theorem docs_name_description cls method_name boilerplate_args method docs :
  c_methods cls !! method_name = Some method ->
  _extract_docs cls method_name boilerplate_args = Ok docs ->
  match m_doc method with
  | Some doc =>
      d_name docs = Some (strip (hd EmptyString (split NL doc)))
      /\ is_Some (d_description docs)
  | None => d_name docs = None /\ d_description docs = None /\ d_output docs = None
  end.
Proof.
  intros Hm H. unfold _extract_docs, getattr_method in H. rewrite Hm in H. simpl in H.
  destruct (m_type_hints method) as [th|]; simpl in H; [|done].
  destruct (apply_type_hints _ _ _) as [inputs|]; simpl in H; [|done].
  destruct (m_doc method) as [doc|].
  - destruct (split NL doc) as [|first rest] eqn:Es; [by apply split_nonempty in Es|].
    simpl in H.
    destruct (parse_lines 1 rest _) as [st|] eqn:Ep; simpl in H; [|done].
    injection H as <-. simpl. split; [|eauto].
    by rewrite (parse_lines_name rest 1 _ st) by done.
  - by injection H as <-.
Qed.

Lemma docs_name_description_witness :
  exists docs,
    _extract_docs (documented (docstring ["  Merge models  "; EmptyString; ":param a: The first"]))
      "__init__" None = Ok docs
    /\ d_name docs = Some "Merge models".
Proof.
  eexists. split; [vm_compute; reflexivity|].
  destruct (docs_name_description
              (documented (docstring ["  Merge models  "; EmptyString; ":param a: The first"]))
              "__init__" None
              (PyMethod [MkParameter "self" None; MkParameter "a" None; MkParameter "xy" None]
                 (Ok ∅)
                 (Some (docstring ["  Merge models  "; EmptyString; ":param a: The first"])))
              (MkDocs
                 (documented (docstring ["  Merge models  "; EmptyString; ":param a: The first"]))
                 (Some "Merge models") None (Some EmptyString)
                 [("a", {[ "name" := PStr "a"; "description" := PStr "The first" ]});
                  ("xy", {[ "name" := PStr "xy" ]})])) as [Hname _].
  - reflexivity.
  - vm_compute. reflexivity.
  - exact Hname.
Defined.

Lemma append_cons (c : ascii) (a b : string) : (String c a ++ b = String c (a ++ b))%string.
Proof. reflexivity. Qed.

Lemma append_assoc (a b c : string) : ((a ++ b) ++ c = a ++ (b ++ c))%string.
Proof. induction a as [|x a IH]; [reflexivity|]. by rewrite !append_cons, IH. Qed.

Lemma append_nil_r (a : string) : (a ++ EmptyString)%string = a.
Proof. induction a as [|x a IH]; [reflexivity|]. by rewrite append_cons, IH. Qed.

Lemma concat_cons (sep x : string) (xs : list string) :
  String.concat sep (x :: xs)
    = (x ++ String.concat EmptyString (map (fun y => sep ++ y) xs))%string.
Proof.
  revert x. induction xs as [|y xs IH]; intros x.
  - simpl. by rewrite append_nil_r.
  - change (String.concat sep (x :: y :: xs))
      with (x ++ sep ++ String.concat sep (y :: xs))%string.
    rewrite IH. simpl. f_equal. rewrite <- append_assoc.
    destruct xs as [|z xs]; simpl; [by rewrite !append_nil_r|reflexivity].
Qed.

Lemma tagged_false (line : string) :
  tagged line = false ->
  startswith ":return:" line = false /\ startswith ":param" line = false
  /\ startswith ":filter_glob" line = false.
Proof.
  unfold tagged. intros H. apply orb_false_iff in H as [H H3].
  apply orb_false_iff in H as [H1 H2]. done.
Qed.

(** The loop on lines without tags, from the fourth line on. *)
Lemma parse_lines_untagged lines i st :
  (3 <= i)%nat ->
  Forall (fun line => tagged (strip line) = false) lines ->
  parse_lines i lines st =
    Ok (DocState (ds_name st) (ds_output st) (ds_inputs st)
          (ds_description st
             ++ String.concat EmptyString (map (fun line => String NL (strip line)) lines))%string).
Proof.
  revert i st. induction lines as [|line lines IH]; intros i st Hi HF; simpl.
  - rewrite append_nil_r. by destruct st.
  - apply Forall_cons in HF as [Hl HF]. apply tagged_false in Hl as (H1 & H2 & H3).
    unfold parse_line. rewrite H1, H2, H3.
    destruct (Nat.eqb_spec i 0); [lia|]. destruct (Nat.eqb_spec i 2); [lia|].
    destruct (Nat.ltb_spec 2 i); [|lia]. simpl.
    rewrite IH by (done || lia). simpl. f_equal. f_equal.
    rewrite append_assoc. f_equal.
    destruct lines; simpl; [by rewrite append_nil_r|reflexivity].
Qed.

(** For a docstring without tag lines after its first line the result is
    known in full: the name is the first line, the description is made of
    the lines from the third on, each trimmed, joined by newlines and trimmed
    as a whole (the second line is dropped), there is no output, and the
    inputs are those of the signature and the type hints. *)
Theorem docs_of_plain_docstring cls method_name boilerplate_args method type_hints inputs doc :
  c_methods cls !! method_name = Some method ->
  m_type_hints method = Ok type_hints ->
  apply_type_hints type_hints
    (OrderedDict.keys (collect_inputs (m_params method) (default [] boilerplate_args)))
    (collect_inputs (m_params method) (default [] boilerplate_args)) = Ok inputs ->
  m_doc method = Some doc ->
  Forall (fun line => tagged (strip line) = false) (drop 1 (split NL doc)) ->
  _extract_docs cls method_name boilerplate_args =
    Ok (MkDocs cls
          (Some (strip (hd EmptyString (split NL doc))))
          None
          (Some (strip (String.concat (String NL EmptyString)
                          (map strip (drop 2 (split NL doc))))))
          inputs).
Proof.
  intros Hm Hth Hin Hdoc HF.
  unfold _extract_docs, getattr_method. rewrite Hm. simpl. rewrite Hth. simpl.
  rewrite Hin. simpl. rewrite Hdoc.
  destruct (split NL doc) as [|first rest] eqn:Es; [by apply split_nonempty in Es|].
  simpl in *. destruct rest as [|second rest]; [reflexivity|].
  apply Forall_cons in HF as [H2 HF]. apply tagged_false in H2 as (H21 & H22 & H23).
  simpl. unfold parse_line at 1. rewrite H21, H22, H23. simpl.
  destruct rest as [|third rest]; [reflexivity|].
  apply Forall_cons in HF as [H3 HF]. apply tagged_false in H3 as (H31 & H32 & H33).
  simpl. unfold parse_line at 1. rewrite H31, H32, H33. simpl.
  rewrite parse_lines_untagged by (done || lia). simpl.
  do 4 f_equal.
  change (match map strip rest with
          | [] => strip third
          | _ :: _ => (strip third ++ String NL EmptyString
                         ++ String.concat (String NL EmptyString) (map strip rest))%string
          end)
    with (String.concat (String NL EmptyString) (strip third :: map strip rest)).
  rewrite concat_cons. by rewrite map_map.
Qed.

Lemma docs_of_plain_docstring_witness :
  _extract_docs
    (documented (docstring ["Merge models"; "dropped"; " Takes two models "; "and merges them."]))
    "__init__" None
  = Ok (MkDocs
          (documented (docstring ["Merge models"; "dropped"; " Takes two models ";
                                  "and merges them."]))
          (Some "Merge models") None
          (Some (docstring ["Takes two models"; "and merges them."]))
          [("a", {[ "name" := PStr "a" ]}); ("xy", {[ "name" := PStr "xy" ]})]).
Proof.
  rewrite (docs_of_plain_docstring _ "__init__" None
             (PyMethod [MkParameter "self" None; MkParameter "a" None; MkParameter "xy" None]
                (Ok ∅)
                (Some (docstring ["Merge models"; "dropped"; " Takes two models ";
                                  "and merges them."])))
             ∅
             [("a", {[ "name" := PStr "a" ]}); ("xy", {[ "name" := PStr "xy" ]})]
             (docstring ["Merge models"; "dropped"; " Takes two models "; "and merges them."])).
  - vm_compute. reflexivity.
  - reflexivity.
  - reflexivity.
  - vm_compute. reflexivity.
  - reflexivity.
  - apply Forall_fold_right. vm_compute. auto.
Defined.

(** *** The [:return:] and [:filter_glob] lines *)

(** On a line other than the first that starts with [:return:] and has at
    least four fields, the output is set to the third field as its name and
    the fourth as its description, both trimmed; what follows a further
    colon is dropped and an earlier output is replaced. *)
Theorem return_line i line st name description :
  i <> 0%nat ->
  startswith ":return:" (strip line) = true ->
  split COLON (strip line) !! 2%nat = Some name ->
  split COLON (strip line) !! 3%nat = Some description ->
  parse_line i line st =
    Ok (DocState (ds_name st)
          (Some {[ "name" := PStr (strip name); "description" := PStr (strip description) ]})
          (ds_inputs st) (ds_description st)).
Proof.
  intros Hi Hr Hn Hd. unfold parse_line, index. apply Nat.eqb_neq in Hi.
  by rewrite Hi, Hr, Hn, Hd.
Qed.

Lemma return_line_witness :
  parse_line 3 "  :return: model: The merged model: see above"
    (DocState (Some "Merge") None [] EmptyString)
  = Ok (DocState (Some "Merge")
          (Some {[ "name" := PStr "model"; "description" := PStr "The merged model" ]})
          [] EmptyString).
Proof.
  apply (return_line 3 "  :return: model: The merged model: see above"
           (DocState (Some "Merge") None [] EmptyString) " model" " The merged model").
  - discriminate.
  - reflexivity.
  - reflexivity.
  - reflexivity.
Defined.

Lemma parse_line_output i line st st' :
  i <> 0%nat ->
  parse_line i line st = Ok st' ->
  if startswith ":return:" (strip line) then is_Some (ds_output st')
  else ds_output st' = ds_output st.
Proof.
  intros Hi. apply Nat.eqb_neq in Hi. unfold parse_line. rewrite Hi.
  destruct (startswith ":return:" (strip line)).
  - intros H. destruct (index _ 2); simpl in H; [|done].
    destruct (index _ 3); simpl in H; [|done]. injection H as <-. simpl. eauto.
  - intros H.
    repeat match type of H with
    | (if ?b then _ else _) = _ => destruct b
    | rbind ?m _ = _ => destruct m; simpl in H; [|discriminate]
    | Ok _ = Ok _ => injection H as <-; simpl
    end; reflexivity.
Qed.

Lemma parse_lines_output lines i st st' :
  i <> 0%nat ->
  parse_lines i lines st = Ok st' ->
  ds_output st' = None <->
  ds_output st = None
  /\ Forall (fun line => startswith ":return:" (strip line) = false) lines.
Proof.
  revert i st. induction lines as [|line lines IH]; intros i st Hi H; simpl in H.
  - injection H as <-. split; [by split|by intros [? _]].
  - destruct (parse_line i line st) as [st1|] eqn:E; simpl in H; [|done].
    rewrite (IH (S i) st1) by done. rewrite Forall_cons.
    pose proof (parse_line_output i line st st1 Hi E) as Hl.
    destruct (startswith ":return:" (strip line)).
    + destruct Hl as [o Ho]. rewrite Ho. split; [by intros [? _]|by intros [_ [? _]]].
    + rewrite Hl. tauto.
Qed.

(** The result has an output if and only if some line of the docstring
    after the first starts with [:return:]. *)
Theorem docs_output cls method_name boilerplate_args method doc docs :
  c_methods cls !! method_name = Some method ->
  m_doc method = Some doc ->
  _extract_docs cls method_name boilerplate_args = Ok docs ->
  d_output docs = None <->
  Forall (fun line => startswith ":return:" (strip line) = false) (drop 1 (split NL doc)).
Proof.
  intros Hm Hdoc H. unfold _extract_docs, getattr_method in H. rewrite Hm in H. simpl in H.
  destruct (m_type_hints method) as [th|]; simpl in H; [|done].
  destruct (apply_type_hints _ _ _) as [inputs|]; simpl in H; [|done].
  rewrite Hdoc in H.
  destruct (split NL doc) as [|first rest] eqn:Es; [by apply split_nonempty in Es|].
  simpl in H. destruct (parse_lines 1 rest _) as [st|] eqn:Ep; simpl in H; [|done].
  injection H as <-. simpl.
  rewrite (parse_lines_output rest 1 _ st) by done. simpl. tauto.
Qed.

Lemma docs_output_witness :
  d_output
    (MkDocs (documented (docstring [":return: a: b"; EmptyString; "Merges."]))
       (Some ":return: a: b") None (Some "Merges.")
       [("a", {[ "name" := PStr "a" ]}); ("xy", {[ "name" := PStr "xy" ]})]) = None
  <-> Forall (fun line => startswith ":return:" (strip line) = false)
        (drop 1 (split NL (docstring [":return: a: b"; EmptyString; "Merges."]))).
Proof.
  apply (docs_output (documented (docstring [":return: a: b"; EmptyString; "Merges."]))
           "__init__" None
           (PyMethod [MkParameter "self" None; MkParameter "a" None; MkParameter "xy" None]
              (Ok ∅) (Some (docstring [":return: a: b"; EmptyString; "Merges."])))).
  - reflexivity.
  - reflexivity.
  - vm_compute. reflexivity.
Defined.

(** A line that starts with [:filter_glob] starts with neither of the other
    two tags, and has a second field. *)
Lemma filter_glob_line_shape (line : string) :
  startswith ":filter_glob" line = true ->
  startswith ":return:" line = false /\ startswith ":param" line = false
  /\ exists field rest, split COLON line = EmptyString :: field :: rest.
Proof.
  unfold startswith. intros H.
  apply prefix_cons in H as (l1 & -> & H). apply prefix_cons in H as (l2 & -> & _).
  split; [reflexivity|]. split; [reflexivity|]. simpl.
  destruct (split COLON l2) as [|f fs]; eauto.
Qed.

(** On a line other than the first that starts with [:filter_glob], the
    parameter named is the second field of the line split on [:], trimmed
    and with every occurrence of [filter_glob ] removed.  When the name is
    not a known parameter the line changes nothing; when it is and the line
    has a third field, that field, trimmed, becomes the file filter of the
    parameter; when it is and the line has no third field, the line is an
    error. *)
Theorem filter_glob_line i line st :
  i <> 0%nat ->
  startswith ":filter_glob" (strip line) = true ->
  exists field,
    split COLON (strip line) !! 1%nat = Some field
    /\ (OrderedDict.mem (replace "filter_glob " EmptyString (strip field)) (ds_inputs st) = false ->
          parse_line i line st = Ok st)
    /\ (OrderedDict.mem (replace "filter_glob " EmptyString (strip field)) (ds_inputs st) = true ->
          parse_line i line st =
            match split COLON (strip line) !! 2%nat with
            | Some pattern =>
                Ok (DocState (ds_name st) (ds_output st)
                      (OrderedDict.alter (insert "filter_glob" (PStr (strip pattern)))
                         (replace "filter_glob " EmptyString (strip field)) (ds_inputs st))
                      (ds_description st))
            | None => Raise index_error
            end).
Proof.
  intros Hi Hp. destruct (filter_glob_line_shape _ Hp) as (Hr & Hq & field & rest & Hs).
  exists field. split; [by rewrite Hs|].
  unfold parse_line. apply Nat.eqb_neq in Hi. rewrite Hi, Hr, Hq, Hp, Hs. simpl. split.
  - by intros ->.
  - intros ->. unfold index.
    change ((EmptyString :: field :: rest) !! 2%nat) with (rest !! 0%nat).
    by destruct (rest !! 0%nat).
Qed.

Lemma filter_glob_line_witness :
  parse_line 4 ":filter_glob a: *.ifc;*.ifczip"
    (DocState (Some "Merge models") None [("a", {[ "name" := PStr "a" ]})] EmptyString)
  = Ok (DocState (Some "Merge models") None
          [("a", {[ "name" := PStr "a"; "filter_glob" := PStr "*.ifc;*.ifczip" ]})]
          EmptyString).
Proof.
  destruct (filter_glob_line 4 ":filter_glob a: *.ifc;*.ifczip"
              (DocState (Some "Merge models") None [("a", {[ "name" := PStr "a" ]})]
                 EmptyString))
    as (field & Hfield & _ & Hknown).
  - discriminate.
  - reflexivity.
  - injection Hfield as <-. rewrite Hknown; reflexivity.
Defined.

(** *** What the docstring cannot change *)

(** The inputs of a result are those of the first two loops, up to the
    description and the file filter. *)
Lemma extract_docs_hinted cls method_name boilerplate_args method docs :
  c_methods cls !! method_name = Some method ->
  _extract_docs cls method_name boilerplate_args = Ok docs ->
  exists type_hints hinted,
    m_type_hints method = Ok type_hints
    /\ apply_type_hints type_hints
         (OrderedDict.keys (collect_inputs (m_params method) (default [] boilerplate_args)))
         (collect_inputs (m_params method) (default [] boilerplate_args)) = Ok hinted
    /\ same_schema hinted (d_inputs docs).
Proof.
  intros Hm H. unfold _extract_docs, getattr_method in H. rewrite Hm in H. simpl in H.
  destruct (m_type_hints method) as [th|]; simpl in H; [|done].
  destruct (apply_type_hints _ _ _) as [hinted|] eqn:Eh; simpl in H; [|done].
  exists th, hinted. split; [done|]. split; [done|].
  destruct (m_doc method) as [doc|].
  - destruct (parse_lines _ _ _) as [st|] eqn:Ep; simpl in H; [|done].
    injection H as <-. simpl. by apply parse_lines_schema in Ep.
  - injection H as <-. apply same_schema_refl.
Qed.

(** The docstring decides nothing but descriptions and file filters: two
    methods with the same signature and the same type hints give, whatever
    their docstrings, the same parameters in the same order, with entries
    that agree on every other field. *)
Theorem docstring_keeps_schema cls1 cls2 name1 name2 boilerplate_args method1 method2
    docs1 docs2 :
  c_methods cls1 !! name1 = Some method1 ->
  c_methods cls2 !! name2 = Some method2 ->
  m_params method1 = m_params method2 ->
  m_type_hints method1 = m_type_hints method2 ->
  _extract_docs cls1 name1 boilerplate_args = Ok docs1 ->
  _extract_docs cls2 name2 boilerplate_args = Ok docs2 ->
  Forall2
    (fun item1 item2 =>
       item1.1 = item2.1
       /\ forall field, field <> "description" -> field <> "filter_glob" ->
                        item1.2 !! field = item2.2 !! field)
    (d_inputs docs1) (d_inputs docs2).
Proof.
  intros Hm1 Hm2 Hp Hh H1 H2.
  destruct (extract_docs_hinted _ _ _ _ _ Hm1 H1) as (th1 & hinted1 & Ht1 & Ha1 & Hs1).
  destruct (extract_docs_hinted _ _ _ _ _ Hm2 H2) as (th2 & hinted2 & Ht2 & Ha2 & Hs2).
  rewrite <- Hp, <- Hh in *. assert (th2 = th1) as -> by congruence.
  assert (hinted2 = hinted1) as -> by congruence.
  clear -Hs1 Hs2. revert Hs2. generalize (d_inputs docs2).
  induction Hs1 as [|x y hinted l1 [Hk Hf] _ IH]; intros l2 Hs2.
  - inversion Hs2. constructor.
  - inversion Hs2 as [|? z ? l2' [Hk' Hf'] Hs2']; subst. constructor; [|by apply IH].
    split; [congruence|]. intros field Hd Hg. by rewrite (Hf field), (Hf' field).
Qed.

Lemma docstring_keeps_schema_witness :
  Forall2
    (fun item1 item2 : string * gmap string pyobj =>
       item1.1 = item2.1
       /\ forall field, field <> "description" -> field <> "filter_glob" ->
                        item1.2 !! field = item2.2 !! field)
    [("a", {[ "name" := PStr "a"; "description" := PStr "The first" ]});
     ("xy", {[ "name" := PStr "xy" ]})]
    [("a", {[ "name" := PStr "a" ]}); ("xy", {[ "name" := PStr "xy" ]})].
Proof.
  apply (docstring_keeps_schema
           (documented (docstring ["Merge"; EmptyString; ":param a: The first"]))
           (documented "Merge") "__init__" "__init__" None
           (PyMethod [MkParameter "self" None; MkParameter "a" None; MkParameter "xy" None]
              (Ok ∅) (Some (docstring ["Merge"; EmptyString; ":param a: The first"])))
           (PyMethod [MkParameter "self" None; MkParameter "a" None; MkParameter "xy" None]
              (Ok ∅) (Some "Merge"))
           (MkDocs (documented (docstring ["Merge"; EmptyString; ":param a: The first"]))
              (Some "Merge") None (Some EmptyString)
              [("a", {[ "name" := PStr "a"; "description" := PStr "The first" ]});
               ("xy", {[ "name" := PStr "xy" ]})])
           (MkDocs (documented "Merge") (Some "Merge") None (Some EmptyString)
              [("a", {[ "name" := PStr "a" ]}); ("xy", {[ "name" := PStr "xy" ]})])).
  - reflexivity.
  - reflexivity.
  - reflexivity.
  - reflexivity.
  - vm_compute. reflexivity.
  - vm_compute. reflexivity.
Defined.

(** *** Colons *)

Lemma split_no_sep (sep : ascii) (s field : string) :
  field ∈ split sep s -> sep ∉ chars field.
Proof.
  revert field. induction s as [|c s IH]; intros field; simpl.
  - intros Hin. apply list_elem_of_singleton in Hin as ->. apply not_elem_of_nil.
  - destruct (Ascii.eqb_spec c sep) as [->|Hne].
    + intros Hin. apply elem_of_cons in Hin as [->|Hin]; [apply not_elem_of_nil|by apply IH].
    + destruct (split sep s) as [|f fs] eqn:Es; [by apply split_nonempty in Es|].
      intros Hin. apply elem_of_cons in Hin as [->|Hin].
      * unfold chars. simpl. apply not_elem_of_cons. split; [congruence|].
        apply IH. left.
      * apply IH. by right.
Qed.

Lemma lstrip_chars (s : string) (c : ascii) : c ∈ chars (lstrip s) -> c ∈ chars s.
Proof.
  induction s as [|a s IH]; simpl; [done|].
  destruct (is_space a); [|done]. intros H. unfold chars. simpl. right. by apply IH.
Qed.

Lemma rstrip_chars (s : string) (c : ascii) : c ∈ chars (rstrip s) -> c ∈ chars s.
Proof.
  induction s as [|a s IH]; simpl; [done|]. unfold chars in *. simpl.
  destruct (rstrip s) as [|b r] eqn:Er.
  - destruct (is_space a); simpl; [by intros ?%elem_of_nil|].
    intros H. apply elem_of_cons in H as [->|H]; [left|by apply elem_of_nil in H].
  - simpl. intros H. apply elem_of_cons in H as [->|H]; [left|right; by apply IH].
Qed.

Lemma strip_chars (s : string) (c : ascii) : c ∈ chars (strip s) -> c ∈ chars s.
Proof. unfold strip. intros H. by apply lstrip_chars, rstrip_chars. Qed.

Lemma mem_lookup {V} (k : string) (d : list (string * V)) :
  OrderedDict.mem k d = true -> exists v, OrderedDict.lookup k d = Some v.
Proof. unfold OrderedDict.mem. destruct (OrderedDict.lookup k d); [eauto|done]. Qed.

(** A description never has a colon in it: on a [:param] line that names a
    known parameter, the description stored for it is cut at the first colon
    that follows the parameter name. *)
Theorem param_description_without_colon i line st st' field :
  i <> 0%nat ->
  startswith ":param" (strip line) = true ->
  split COLON (strip line) !! 1%nat = Some field ->
  OrderedDict.mem (replace "param " EmptyString (strip field)) (ds_inputs st) = true ->
  parse_line i line st = Ok st' ->
  exists entry description,
    OrderedDict.lookup (replace "param " EmptyString (strip field)) (ds_inputs st') = Some entry
    /\ entry !! "description" = Some (PStr description)
    /\ COLON ∉ chars description.
Proof.
  intros Hi Hp Hfield Hmem H. destruct (param_line_shape _ Hp) as (Hr & f & rest & Hs).
  rewrite Hs in Hfield. injection Hfield as ->.
  unfold parse_line in H. apply Nat.eqb_neq in Hi. rewrite Hi, Hr, Hp, Hs in H.
  remember (replace "param " EmptyString (strip field)) as name eqn:Hname.
  unfold index in H. change ((EmptyString :: field :: rest) !! 1%nat) with (Some field) in H.
  cbn [rbind] in H. rewrite <- Hname, Hmem in H.
  change ((EmptyString :: field :: rest) !! 2%nat) with (rest !! 0%nat) in H.
  destruct (rest !! 0%nat) as [d|] eqn:Ed; simpl in H; [|done].
  injection H as <-. simpl.
  destruct (mem_lookup _ _ Hmem) as [e He].
  exists (<[ "description" := PStr (strip d) ]> e), (strip d).
  split; [|split].
  - rewrite lookup_alter, String.eqb_refl, He. reflexivity.
  - apply lookup_insert_eq.
  - intros Hc. apply strip_chars in Hc. revert Hc. apply (split_no_sep COLON (strip line)).
    rewrite Hs. right. right. apply list_elem_of_lookup. eauto.
Qed.

Lemma param_description_without_colon_witness :
  exists (entry : gmap string pyobj) description,
    OrderedDict.lookup "a"
      [("a", {[ "name" := PStr "a"; "description" := PStr "See https" ]})] = Some entry
    /\ entry !! "description" = Some (PStr description)
    /\ COLON ∉ chars description.
Proof.
  apply (param_description_without_colon 2 ":param a: See https://ifcopenshell.org"
           (DocState (Some "Merge") None [("a", {[ "name" := PStr "a" ]})] EmptyString)
           (DocState (Some "Merge") None
              [("a", {[ "name" := PStr "a"; "description" := PStr "See https" ]})] EmptyString)
           "param a").
  - discriminate.
  - reflexivity.
  - reflexivity.
  - reflexivity.
  - vm_compute. reflexivity.
Defined.

(** *** No partial schema *)

Lemma apply_type_hint_failure type_hint d d' e :
  apply_type_hint type_hint d = Raise e -> apply_type_hint type_hint d' = Raise e.
Proof.
  unfold apply_type_hint. intros H.
  destruct type_hint; simpl in *; try done.
  - destruct (String.eqb name "Literal"); done.
  - destruct (index args 0) as [x|]; simpl in *; [|done].
    destruct x; simpl in *; try done.
    + destruct (String.eqb name0 "Literal"); done.
    + destruct (String.eqb name0 "Literal"); done.
    + destruct (map_result getattr_name args0); simpl in *; done.
    + destruct (String.eqb name0 "Literal"); done.
  - destruct (map_result getattr_name args); simpl in *; done.
  - destruct (String.eqb name "Literal"); done.
Qed.

Lemma map_result_failure {A B} (f : A -> result B) (l : list A) (x : A) (e : exn) :
  x ∈ l -> f x = Raise e -> exists e', map_result f l = Raise e'.
Proof.
  induction l as [|a l IH]; intros Hin Hx.
  - by apply elem_of_nil in Hin.
  - simpl. apply elem_of_cons in Hin as [<-|Hin].
    + rewrite Hx. simpl. eauto.
    + destruct (f a); simpl; [|eauto].
      destruct (IH Hin Hx) as [e' ->]. simpl. eauto.
Qed.

(** There is no partial schema: when the type hint of one kept parameter
    cannot be handled (a generic alias without arguments, a hint or a member
    of a union without a name), [_extract_docs] raises, whatever the other
    parameters and the docstring are. *)
Theorem hint_failure_no_schema cls method_name boilerplate_args method type_hints p hint e :
  c_methods cls !! method_name = Some method ->
  NoDup (map p_name (m_params method)) ->
  m_type_hints method = Ok type_hints ->
  p ∈ m_params method ->
  p_name p <> "self" -> p_name p ∉ default [] boilerplate_args ->
  type_hints !! p_name p = Some hint ->
  is_None hint = false ->
  apply_type_hint hint ∅ = Raise e ->
  exists e', _extract_docs cls method_name boilerplate_args = Raise e'.
Proof.
  intros Hm Hnd Hth Hp Hself Hexcl Hhint Hnone He.
  unfold _extract_docs, getattr_method. rewrite Hm. simpl. rewrite Hth. simpl.
  rewrite collect_inputs_spec by done.
  rewrite apply_type_hints_spec by (rewrite keys_entries; by apply NoDup_kept_names).
  destruct (map_result_failure (hinted_item type_hints)
              (map entry_of (filter (fun p => kept (default [] boilerplate_args) p = true)
                               (m_params method)))
              (entry_of p) e) as [e' ->].
  - apply list_elem_of_fmap. exists p. split; [done|].
    apply list_elem_of_filter. split; [by apply kept_spec|done].
  - unfold hinted_item, hinted_entry. simpl. rewrite Hhint. simpl. rewrite Hnone.
    by rewrite (apply_type_hint_failure hint ∅ (initial_entry p) e He).
  - simpl. eauto.
Qed.

Lemma hint_failure_no_schema_witness :
  exists e',
    _extract_docs
      (PyClass "Patcher" ∅
         {[ "__init__" := PyMethod [MkParameter "self" None; MkParameter "a" None;
                                    MkParameter "shape" None]
                            (Ok {[ "a" := PClass "str"; "shape" := PGenericAlias "tuple" [] ]})
                            (Some "Reshape") ]}
         store_file (fun inst => Ok inst))
      "__init__" None = Raise e'.
Proof.
  apply (hint_failure_no_schema _ "__init__" None
           (PyMethod [MkParameter "self" None; MkParameter "a" None; MkParameter "shape" None]
              (Ok {[ "a" := PClass "str"; "shape" := PGenericAlias "tuple" [] ]})
              (Some "Reshape"))
           {[ "a" := PClass "str"; "shape" := PGenericAlias "tuple" [] ]}
           (MkParameter "shape" None) (PGenericAlias "tuple" []) index_error).
  - reflexivity.
  - apply (bool_decide_unpack _). vm_compute. exact I.
  - reflexivity.
  - repeat first [apply list_elem_of_here | apply list_elem_of_further].
  - discriminate.
  - apply not_elem_of_nil.
  - reflexivity.
  - reflexivity.
  - reflexivity.
Defined.

End SchemaExtra.
